(** * EV market analysis: a shallow embedding of [scripts/data_processor.py]

    The script loads a vehicle-registration table, keeps the rows of one
    state, fits an exponential growth curve to the yearly counts and draws
    eight charts.  pandas objects are modelled by the data they hold, the
    external numerical routines (float arithmetic, SciPy's [curve_fit], the
    CSV parser, the wall clock) are parameters, and the effects of the
    script (object store, log, figures written) are threaded through a small
    state-and-exception monad. *)

From Stdlib Require Import ZArith Ascii String.
From stdpp Require Import base numbers list sorting gmap.

Local Open Scope Z_scope.

(** ** Python values *)

(** A Python [str] is a sequence of code points. *)
Definition str := list N.

Fixpoint lit (s : string) : str :=
  match s with
  | EmptyString => []
  | String a s' => N_of_ascii a :: lit s'
  end.

(** The line feed, ['\n']. *)
Definition nl : str := [10%N].

(** Exceptions the script can meet.  [KeyboardInterrupt] derives from
    [BaseException] only, so [except Exception] lets it through. *)
Inductive exn :=
  | FileNotFoundError | ParserError | ValueError | TypeError
  | KeyError | RuntimeError | KeyboardInterrupt.

Definition is_Exception (e : exn) : bool :=
  match e with KeyboardInterrupt => false | _ => true end.

(** Fixed-width integers: the value, wrapped into the signed [w]-bit range. *)
Definition wrap (w : Z) (z : Z) : Z := (z + 2 ^ (w - 1)) mod 2 ^ w - 2 ^ (w - 1).
Definition int16 (z : Z) : Prop := -32768 <= z < 32768.

(** Float arithmetic is external (IEEE doubles inside NumPy): the operations
    the script uses are the fields of this interface. *)
Class FloatOps (F : Type) := {
  fmul : F -> F -> F;
  fexp : F -> F;
  F_of_Z : Z -> F;
  fnan : F;
  fmean : list F -> F;
  fleb : F -> F -> bool
}.

(** ** The table *)

(** One record of the CSV, restricted to [usecols].  A categorical or float
    cell may be missing ([None] is NaN); an [int16] column cannot hold a
    missing value. *)
Record Row (F : Type) := mkRow {
  State : option str;
  Model_Year : Z;
  Make : option str;
  Model : option str;
  County : option str;
  City : option str;
  Electric_Vehicle_Type : option str;
  Electric_Range : option F
}.
Arguments mkRow {F} _ _ _ _ _ _ _ _.
Arguments State {F} _.
Arguments Model_Year {F} _.
Arguments Make {F} _.
Arguments Model {F} _.
Arguments County {F} _.
Arguments City {F} _.
Arguments Electric_Vehicle_Type {F} _.
Arguments Electric_Range {F} _.

(** The six columns read with [dtype='category']. *)
Inductive CatCol := cState | cMake | cModel | cCounty | cCity | cType.

#[global] Instance CatCol_eq_dec : EqDecision CatCol.
Proof. solve_decision. Defined.

Definition cell {F} (c : CatCol) (r : Row F) : option str :=
  match c with
  | cState => State r
  | cMake => Make r
  | cModel => Model r
  | cCounty => County r
  | cCity => City r
  | cType => Electric_Vehicle_Type r
  end.

(** A DataFrame: its rows with their index labels, and the categories of
    each categorical column.  Selecting rows keeps the categories of the
    frame it was taken from. *)
Record DataFrame (F : Type) := mkFrame {
  frame_rows : list (nat * Row F);
  frame_cats : CatCol -> list str
}.
Arguments mkFrame {F} _ _.
Arguments frame_rows {F} _.
Arguments frame_cats {F} _ _.

Section Pandas.
Context {F : Type} `{!FloatOps F}.

Definition records (df : DataFrame F) : list (Row F) := snd <$> frame_rows df.
Definition index (df : DataFrame F) : list nat := fst <$> frame_rows df.

(** [len(df)] *)
Definition len (df : DataFrame F) : nat := length (frame_rows df).

Definition notna (r : Row F) : bool :=
  bool_decide (is_Some (State r)) && bool_decide (is_Some (Make r)) &&
  bool_decide (is_Some (Model r)) && bool_decide (is_Some (County r)) &&
  bool_decide (is_Some (City r)) &&
  bool_decide (is_Some (Electric_Vehicle_Type r)) &&
  bool_decide (is_Some (Electric_Range r)).

(** [df.dropna()]: rows with a missing cell go, labels stay. *)
Definition dropna (df : DataFrame F) : DataFrame F :=
  mkFrame (filter (λ p, notna p.2) (frame_rows df)) (frame_cats df).

(** [df.reset_index(drop=True)]: the labels become 0, 1, 2, ... *)
Definition reset_index (df : DataFrame F) : DataFrame F :=
  mkFrame (zip (seq 0 (len df)) (records df)) (frame_cats df).

(** [df[df[c] == v]] *)
Definition select_eq (c : CatCol) (v : str) (df : DataFrame F) : DataFrame F :=
  mkFrame (filter (λ p, cell c p.2 = Some v) (frame_rows df)) (frame_cats df).

(** [df[df[c].isin(ks)]]: a missing cell is in no list. *)
Definition isin (v : option str) (ks : list str) : bool :=
  match v with Some k => bool_decide (k ∈ ks) | None => false end.

Definition select_isin (c : CatCol) (ks : list str) (df : DataFrame F) : DataFrame F :=
  mkFrame (filter (λ p, isin (cell c p.2) ks) (frame_rows df)) (frame_cats df).

(** [s.unique()]: the distinct values, in order of first appearance. *)
Definition unique {A} `{EqDecision A} (l : list A) : list A :=
  reverse (remove_dups (reverse l)).

(** Number of occurrences. *)
Definition occurrences {A} `{EqDecision A} (a : A) (l : list A) : nat :=
  length (filter (λ x, x = a) l).

(** [s.sort_values(ascending=False)] on counts, and on floats. *)
Definition count_ge {K} (a b : K * nat) : Prop := (b.2 ≤ a.2)%nat.
Definition float_ge {K} (a b : K * F) : Prop := fleb b.2 a.2.

#[global] Instance count_ge_dec {K} : RelDecision (@count_ge K) :=
  λ a b, decide (b.2 ≤ a.2)%nat.
#[global] Instance float_ge_dec {K} : RelDecision (@float_ge K) :=
  λ a b, decide (Is_true (fleb b.2 a.2)).

(** The descending sort, with entries that compare equal kept in the order
    they had: pandas reverses the values, sorts them into ascending order
    with NumPy's default sort and reverses the result.  That sort is not
    stable in general (it keeps equal entries in their order where it sorts
    by insertion, on short series); what is proved below about a sorted
    series holds for every order among equal entries. *)
Fixpoint insert_desc {A} (R : relation A) `{!RelDecision R} (x : A) (l : list A) : list A :=
  match l with
  | [] => [x]
  | y :: l' => if decide (R x y) then x :: l else y :: insert_desc R x l'
  end.
Definition sort_desc {A} (R : relation A) `{!RelDecision R} (l : list A) : list A :=
  foldr (insert_desc R) [] l.

Definition sort_counts_desc {K} (s : list (K * nat)) : list (K * nat) :=
  sort_desc count_ge s.
(** On floats the missing values come last ([na_position='last']), in the
    order they had; a NaN is the one float that is not at most itself. *)
Definition sort_floats_desc {K} (s : list (K * F)) : list (K * F) :=
  sort_desc float_ge (filter (λ e, fleb e.2 e.2) s) ++ filter (λ e, ¬ fleb e.2 e.2) s.

(** [s.sort_index()] on an integer index. *)
Definition key_le {V} (a b : Z * V) : Prop := a.1 <= b.1.
#[global] Instance key_le_dec {V} : RelDecision (@key_le V) :=
  λ a b, decide (a.1 <= b.1).
Definition sort_index {V} (s : list (Z * V)) : list (Z * V) :=
  merge_sort key_le s.

(** [df['Model Year'].value_counts()]: one entry per distinct year, the
    most frequent first. *)
Definition years (df : DataFrame F) : list Z := Model_Year <$> records df.

Definition value_counts_year (df : DataFrame F) : list (Z * nat) :=
  sort_counts_desc ((λ y, (y, occurrences y (years df))) <$> unique (years df)).

(** [df[c].value_counts()] on a categorical column: one entry per category
    of the column, observed or not; missing cells are not counted. *)
Definition column (c : CatCol) (df : DataFrame F) : list (option str) :=
  cell c <$> records df.

Definition category_counts (c : CatCol) (df : DataFrame F) : list (str * nat) :=
  (λ k, (k, occurrences (Some k) (column c df))) <$> frame_cats df c.

Definition value_counts (c : CatCol) (df : DataFrame F) : list (str * nat) :=
  sort_counts_desc (category_counts c df).

(** [df.groupby([c1, c2], observed=True)]: the groups are the observed
    pairs of categories, in category order. *)
Definition group (c1 c2 : CatCol) (k : str * str) (df : DataFrame F) : list (Row F) :=
  filter (λ r, cell c1 r = Some k.1 ∧ cell c2 r = Some k.2) (records df).

Definition groups (c1 c2 : CatCol) (df : DataFrame F) : list (str * str) :=
  filter (λ k, 0 < length (group c1 c2 k df))%nat
         (k1 ← frame_cats df c1; k2 ← frame_cats df c2; [(k1, k2)]).

(** [.size()] *)
Definition groupby_size (c1 c2 : CatCol) (df : DataFrame F) : list ((str * str) * nat) :=
  (λ k, (k, length (group c1 c2 k df))) <$> groups c1 c2 df.

(** [['Electric Range'].mean()]: missing cells are skipped. *)
Definition groupby_mean_range (c1 c2 : CatCol) (df : DataFrame F) : list ((str * str) * F) :=
  (λ k, (k, fmean (omap Electric_Range (group c1 c2 k df)))) <$> groups c1 c2 df.

(** [df.groupby('Model Year')['Electric Range'].mean()] *)
Definition mean_range_by_year (df : DataFrame F) : list (Z * F) :=
  (λ y, (y, fmean (omap Electric_Range (filter (λ r, Model_Year r = y) (records df)))))
    <$> merge_sort Z.le (unique (years df)).

(** [s[s.index <= c]] *)
Definition index_le {V} (c : Z) (s : list (Z * V)) : list (Z * V) :=
  filter (λ e, e.1 <= c) s.

(** [idx.min()]: NaN ([None]) on an empty index. *)
Definition index_min (idx : list Z) : option Z :=
  foldr (λ y acc, Some (from_option (Z.min y) y acc)) None idx.

(** [idx - m] on an [int16] index and an [int16] scalar: the difference
    stays [int16].  The scalar is NaN only when the index is empty. *)
Definition index_sub (idx : list Z) (m : option Z) : list Z :=
  match m with
  | Some m => (λ y, wrap 16 (y - m)) <$> idx
  | None => []
  end.

(** The label shown on a horizontal bar:
    [x[:12] + '...' if len(x) > 12 else x]. *)
Definition ellipsis : str := lit "...".
Definition shorten (x : str) : str :=
  if decide (12 < length x)%nat then take 12 x ++ ellipsis else x.
End Pandas.

(** ** Effects *)

(** A plotted quantity: a count or a float. *)
Inductive num (F : Type) := Count (n : nat) | Float (x : F).
Arguments Count {F} _.
Arguments Float {F} _.

(** What the script writes to the log and to standard output. *)
Inductive info :=
  | Loaded (file_path : str) (rows cols : nat)
  | DroppedMissing (rows : nat)
  | FilteredWA (rows : nat)
  | SavedPlot (what : str).

Inductive error := ErrorLoading (e : exn) | NoInputFolder.

Inductive printed (F : Type) :=
  | Text (s : str)
  | Head (rows : list (nat * Row F))
  | Info (rows : nat)
  | MissingValues (per_column : list (str * nat))
  | Forecast (m : gmap (Z + nat) F).
Arguments Text {F} _.
Arguments Head {F} _.
Arguments Info {F} _.
Arguments MissingValues {F} _.
Arguments Forecast {F} _.

(** The observable steps of a run: what is logged and printed, the call of
    SciPy's [curve_fit] with its data, and what is drawn and saved.  Titles,
    axis labels, colours and legend placement are not recorded. *)
Inductive event (F : Type) :=
  | LogInfo (m : info)
  | LogError (m : error)
  | Print (p : printed F)
  | Makedirs (path : str)
  | Subplots
  | CurveFit (x_data : list Z) (y_data : list nat)
  | Bar (x : list Z) (height : list nat)
  | Barh (y : list str) (width : list (num F)) (label : option str)
  | Plot (x : list Z) (y : list (num F)) (label : option str)
  | SaveFig (filename : str)
  | Close
  | GcCollect.
Arguments LogInfo {F} _.
Arguments LogError {F} _.
Arguments Print {F} _.
Arguments Makedirs {F} _.
Arguments Subplots {F}.
Arguments CurveFit {F} _ _.
Arguments Bar {F} _ _.
Arguments Barh {F} _ _ _.
Arguments Plot {F} _ _ _.
Arguments SaveFig {F} _.
Arguments Close {F}.
Arguments GcCollect {F}.

(** Objects of the store.  The registration table and the tables selected
    from it are [OFrame]s; the small frames made by [reset_index] on a
    grouped series have two key columns and one value column. *)
Record Table (F : Type) := mkTable {
  tab_keys : CatCol * CatCol;
  tab_rows : list (str * str * num F)
}.
Arguments mkTable {F} _ _.
Arguments tab_keys {F} _.
Arguments tab_rows {F} _.

Inductive pyobj (F : Type) :=
  | OFrame (df : DataFrame F)
  | OTable (t : Table F).
Arguments OFrame {F} _.
Arguments OTable {F} _.

Definition loc := nat.

(** The state of a run: the objects allocated so far (a reference is the
    position of its object), the number of steps taken (the wall clock is
    read at a step), and the events so far, oldest first. *)
Record state (F : Type) := mkState {
  heap : list (pyobj F);
  ticks : nat;
  trace : list (event F)
}.
Arguments mkState {F} _ _ _.
Arguments heap {F} _.
Arguments ticks {F} _.
Arguments trace {F} _.

Inductive outcome (A : Type) := Ret (a : A) | Raise (e : exn).
Arguments Ret {A} _.
Arguments Raise {A} _.

(** [datetime.now()] and [strftime('%Y%m%d_%H%M%S')]. *)
Record datetime := mkDatetime {
  dt_year : N; dt_month : N; dt_day : N;
  dt_hour : N; dt_minute : N; dt_second : N
}.

Definition digit (n : N) : N := (48 + n mod 10)%N.
Definition pad2 (n : N) : str := [digit (n / 10); digit n].
Definition pad4 (n : N) : str :=
  [digit (n / 1000); digit (n / 100); digit (n / 10); digit n].

Definition strftime (t : datetime) : str :=
  pad4 (dt_year t) ++ pad2 (dt_month t) ++ pad2 (dt_day t) ++ lit "_" ++
  pad2 (dt_hour t) ++ pad2 (dt_minute t) ++ pad2 (dt_second t).

(** What the run depends on and the script does not define: the file
    system, the CSV parser, the least-squares solver and the clock. *)
Record World (F : Type) := mkWorld {
  input_folder : str;
  output_folder : str;
  path_join : str -> str -> str;
  path_exists : str -> bool;
  read_csv : str -> list str -> exn + DataFrame F;
  curve_fit : (F -> F -> F -> F) -> list Z -> list nat -> exn + (F * F);
  wall_clock : nat -> datetime
}.
Arguments mkWorld {F} _ _ _ _ _ _ _.
Arguments input_folder {F} _.
Arguments output_folder {F} _.
Arguments path_join {F} _ _ _.
Arguments path_exists {F} _ _.
Arguments read_csv {F} _ _ _.
Arguments curve_fit {F} _ _ _ _.
Arguments wall_clock {F} _ _.

Definition M (F A : Type) : Type := state F -> outcome A * state F.

Section Monad.
Context {F : Type}.

#[global] Instance M_ret : MRet (M F) := λ A a s, (Ret a, s).
#[global] Instance M_bind : MBind (M F) := λ A B k m s,
  match m s with
  | (Ret a, s') => k a s'
  | (Raise e, s') => (Raise e, s')
  end.

Definition raise {A} (e : exn) : M F A := λ s, (Raise e, s).

Definition lift {A} (r : exn + A) : M F A :=
  match r with inl e => raise e | inr a => mret a end.

(** One observable step. *)
Definition emit (e : event F) : M F unit := λ s,
  (Ret (), mkState (heap s) (S (ticks s)) (trace s ++ [e])).

(** A new object; its reference is returned. *)
Definition new (o : pyobj F) : M F loc := λ s,
  (Ret (length (heap s)), mkState (heap s ++ [o]) (ticks s) (trace s)).

Definition get (l : loc) : M F (pyobj F) := λ s,
  match heap s !! l with
  | Some o => (Ret o, s)
  | None => (Raise RuntimeError, s)
  end.

Definition get_frame (l : loc) : M F (DataFrame F) :=
  o ← get l; match o with OFrame df => mret df | _ => raise TypeError end.

Definition get_table (l : loc) : M F (Table F) :=
  o ← get l; match o with OTable t => mret t | _ => raise TypeError end.

(** [obj[c] = values]: the column is replaced in the object itself.  The
    lengths must agree. *)
Definition set_cell (c : CatCol) (v : str) (r : Row F) : Row F :=
  match c with
  | cState => mkRow (Some v) (Model_Year r) (Make r) (Model r) (County r) (City r)
                    (Electric_Vehicle_Type r) (Electric_Range r)
  | cMake => mkRow (State r) (Model_Year r) (Some v) (Model r) (County r) (City r)
                   (Electric_Vehicle_Type r) (Electric_Range r)
  | cModel => mkRow (State r) (Model_Year r) (Make r) (Some v) (County r) (City r)
                    (Electric_Vehicle_Type r) (Electric_Range r)
  | cCounty => mkRow (State r) (Model_Year r) (Make r) (Model r) (Some v) (City r)
                     (Electric_Vehicle_Type r) (Electric_Range r)
  | cCity => mkRow (State r) (Model_Year r) (Make r) (Model r) (County r) (Some v)
                   (Electric_Vehicle_Type r) (Electric_Range r)
  | cType => mkRow (State r) (Model_Year r) (Make r) (Model r) (County r) (City r)
                   (Some v) (Electric_Range r)
  end.

Definition setitem_obj (c : CatCol) (values : list str) (o : pyobj F)
  : option (pyobj F) :=
  match o with
  | OFrame df =>
      if decide (length values = len df) then
        Some (OFrame (mkFrame
                (zip_with (λ p v, (p.1, set_cell c v p.2)) (frame_rows df) values)
                (frame_cats df)))
      else None
  | OTable t =>
      if decide (length values = length (tab_rows t)) then
        if decide (c = (tab_keys t).1) then
          Some (OTable (mkTable (tab_keys t)
                  (zip_with (λ r v, (v, r.1.2, r.2)) (tab_rows t) values)))
        else if decide (c = (tab_keys t).2) then
          Some (OTable (mkTable (tab_keys t)
                  (zip_with (λ r v, (r.1.1, v, r.2)) (tab_rows t) values)))
        else None
      else None
  end.

Definition setitem (l : loc) (c : CatCol) (values : list str) : M F unit := λ s,
  match heap s !! l with
  | Some o =>
      match setitem_obj c values o with
      | Some o' => (Ret (), mkState (<[l := o']> (heap s)) (ticks s) (trace s))
      | None => (Raise ValueError, s)
      end
  | None => (Raise RuntimeError, s)
  end.

(** [try: body except Exception as e: handler(e)] *)
Definition try_except {A} (body : M F A) (handler : exn -> M F A) : M F A := λ s,
  match body s with
  | (Raise e, s') => if is_Exception e then handler e s' else (Raise e, s')
  | r => r
  end.

(** [for x in xs: body(x)] *)
Fixpoint for_each {A} (xs : list A) (body : A -> M F unit) : M F unit :=
  match xs with
  | [] => mret ()
  | x :: xs => body x ;; for_each xs body
  end.
End Monad.

(** ** The script *)

Section Script.
Context {F : Type} `{!FloatOps F} (W : World F).

Definition now : M F datetime := λ s, (Ret (wall_clock W (ticks s)), s).

Definition usecols : list str :=
  [lit "State"; lit "Model Year"; lit "Make"; lit "Model"; lit "County";
   lit "City"; lit "Electric Vehicle Type"; lit "Electric Range"].

(** [df.isnull().sum()]: the number of missing cells of each column, by
    the column's name (they are printed in the order the columns have in the
    file, which is not recorded here). *)
Definition isnull_sum (df : DataFrame F) : list (str * nat) :=
  let missing {A} (f : Row F -> option A) :=
    length (filter (λ r, f r = None) (records df)) in
  zip usecols
    [missing State; 0%nat; missing Make; missing Model; missing County;
     missing City; missing Electric_Vehicle_Type; missing Electric_Range].

Definition load_data (file_path : str) : M F (option loc) :=
  try_except
    (d ← lift (read_csv W file_path usecols);
     df ← new (OFrame d);
     d ← get_frame df;
     emit (LogInfo (Loaded file_path (len d) (length usecols)));;
     emit (Print (Text (lit "Dataset Preview:")));;
     d ← get_frame df;
     emit (Print (Head (take 5 (frame_rows d))));;
     emit (Print (Text (nl ++ lit "Dataset Info:")));;
     d ← get_frame df;
     emit (Print (Info (len d)));;
     emit (Print (Text (nl ++ lit "Missing Values:")));;
     d ← get_frame df;
     emit (Print (MissingValues (isnull_sum d)));;
     d ← get_frame df;
     df ← new (OFrame (reset_index (dropna d)));
     d ← get_frame df;
     emit (LogInfo (DroppedMissing (len d)));;
     d ← get_frame df;
     df ← new (OFrame (reset_index (select_eq cState (lit "WA") d)));
     d ← get_frame df;
     emit (LogInfo (FilteredWA (len d)));;
     mret (Some df))
    (λ e, emit (LogError (ErrorLoading e));; mret None).

(** *** Aggregations computed by [plot_all_charts] *)

Definition ev_adoption_by_year (df : DataFrame F) : list (Z * nat) :=
  sort_index (value_counts_year df).
Definition ev_county_distribution (df : DataFrame F) : list (str * nat) :=
  value_counts cCounty df.
Definition top_counties (df : DataFrame F) : list str :=
  (take 3 (ev_county_distribution df)).*1.
Definition top_counties_data (df : DataFrame F) : DataFrame F :=
  select_isin cCounty (top_counties df) df.
Definition ev_type_distribution (df : DataFrame F) : list (str * nat) :=
  value_counts cType df.
Definition ev_make_distribution (df : DataFrame F) : list (str * nat) :=
  take 5 (value_counts cMake df).
Definition top_3_makes (df : DataFrame F) : list str :=
  (take 3 (ev_make_distribution df)).*1.
Definition top_makes_data (df : DataFrame F) : DataFrame F :=
  select_isin cMake (top_3_makes df) df.

(** [.groupby([c1, c2], observed=True).size().sort_values(ascending=False)] *)
Definition pair_counts (c1 c2 : CatCol) (df : DataFrame F) : list ((str * str) * nat) :=
  sort_counts_desc (groupby_size c1 c2 df).
(** [.groupby([c1, c2], observed=True)['Electric Range'].mean().sort_values(ascending=False)] *)
Definition pair_means (c1 c2 : CatCol) (df : DataFrame F) : list ((str * str) * F) :=
  sort_floats_desc (groupby_mean_range c1 c2 df).

(** [.reset_index(...)]: the grouped series becomes a frame of three columns. *)
Definition count_table (c1 c2 : CatCol) (s : list ((str * str) * nat)) : Table F :=
  mkTable (c1, c2) ((λ e, (e.1.1, e.1.2, Count e.2)) <$> s).
Definition mean_table (c1 c2 : CatCol) (s : list ((str * str) * F)) : Table F :=
  mkTable (c1, c2) ((λ e, (e.1.1, e.1.2, Float e.2)) <$> s).

(** [t[c]] on such a frame, for one of its key columns. *)
Definition key_column (c : CatCol) (t : Table F) : M F (list str) :=
  if decide (c = (tab_keys t).1) then mret ((λ r, r.1.1) <$> tab_rows t)
  else if decide (c = (tab_keys t).2) then mret ((λ r, r.1.2) <$> tab_rows t)
  else raise KeyError.

(** [t[c] = t[c].astype(str).apply(lambda x: x[:12] + '...' if len(x) > 12 else x)] *)
Definition shorten_column (l : loc) (c : CatCol) : M F unit :=
  t ← get_table l;
  labels ← key_column c t;
  setitem l c (shorten <$> labels).

(** The loop that draws one group of horizontal bars per value of the
    first key column:
    [for i, k in enumerate(t[c1].unique()):
         subset = t[t[c1] == k]
         ax.barh(subset[c2], subset[value], color=colors[i], label=k)] *)
Definition barh_groups (l : loc) : M F unit :=
  t ← get_table l;
  for_each (unique ((λ r, r.1.1) <$> tab_rows t)) (λ k,
    t ← get_table l;
    let subset := filter (λ r, r.1.1 = k) (tab_rows t) in
    emit (Barh ((λ r, r.1.2) <$> subset) (snd <$> subset) (Some k))).

(** [plt.savefig(filename, ...); plt.close(fig); gc.collect(); logging.info(...)] *)
Definition save_and_release (filename what : str) : M F unit :=
  emit (SaveFig filename);;
  emit Close;;
  emit GcCollect;;
  emit (LogInfo (SavedPlot what)).

(** [np.arange(a, b)] *)
Definition arange (a b : Z) : list Z := seqZ a (b - a).

(** [f'{output_prefix}_{slug}_{timestamp}.png'] *)
Definition chart_filename (output_prefix slug timestamp : str) : str :=
  output_prefix ++ lit "_" ++ slug ++ lit "_" ++ timestamp ++ lit ".png".

Definition plot_all_charts (df : loc) (forecasted_evs : gmap (Z + nat) F)
    (output_prefix : str) : M F unit :=
  t ← now;
  let timestamp := strftime t in
  (* Precompute aggregations to reuse *)
  d ← get_frame df;
  let adoption := ev_adoption_by_year d in
  d ← get_frame df;
  let top_counties := top_counties d in
  d ← get_frame df;
  tc_data ← new (OFrame (select_isin cCounty top_counties d));
  d ← get_frame df;
  let type_distribution := ev_type_distribution d in
  d ← get_frame df;
  let make_distribution := ev_make_distribution d in
  let top_3_makes := (take 3 make_distribution).*1 in
  d ← get_frame df;
  tm_data ← new (OFrame (select_isin cMake top_3_makes d));
  (* EV Adoption Over Time *)
  emit Subplots;;
  emit (Bar adoption.*1 adoption.*2);;
  save_and_release
    (chart_filename output_prefix (lit "ev_adoption_over_time") timestamp)
    (lit "EV adoption over time");;
  (* Top Cities in Top Counties *)
  emit Subplots;;
  tcd ← get_frame tc_data;
  city_distribution ←
    new (OTable (count_table cCounty cCity (take 5 (pair_counts cCounty cCity tcd))));
  shorten_column city_distribution cCity;;
  barh_groups city_distribution;;
  save_and_release
    (chart_filename output_prefix (lit "top_cities_in_top_counties") timestamp)
    (lit "top cities in top counties");;
  (* EV Type Distribution *)
  emit Subplots;;
  emit (Barh type_distribution.*1 (Count <$> type_distribution.*2) None);;
  save_and_release
    (chart_filename output_prefix (lit "ev_type_distribution") timestamp)
    (lit "EV type distribution");;
  (* Top 5 Makes *)
  emit Subplots;;
  emit (Barh make_distribution.*1 (Count <$> make_distribution.*2) None);;
  save_and_release
    (chart_filename output_prefix (lit "top_5_makes") timestamp)
    (lit "top 5 makes");;
  (* Top Models in Top 3 Makes *)
  emit Subplots;;
  tmd ← get_frame tm_data;
  model_distribution ← new (OTable (count_table cMake cModel (pair_counts cMake cModel tmd)));
  md ← get_table model_distribution;
  top_models ← new (OTable (mkTable (tab_keys md) (take 5 (tab_rows md))));
  shorten_column top_models cModel;;
  barh_groups top_models;;
  save_and_release
    (chart_filename output_prefix (lit "top_models_in_top_makes") timestamp)
    (lit "top models in top makes");;
  (* Average Range by Model Year *)
  emit Subplots;;
  d ← get_frame df;
  let average_range_by_year := mean_range_by_year d in
  emit (Plot average_range_by_year.*1 (Float <$> average_range_by_year.*2) None);;
  save_and_release
    (chart_filename output_prefix (lit "average_range_by_year") timestamp)
    (lit "average range by year");;
  (* Top Models by Average Range *)
  emit Subplots;;
  tmd ← get_frame tm_data;
  average_range_by_model ← new (OTable (mean_table cMake cModel (pair_means cMake cModel tmd)));
  am ← get_table average_range_by_model;
  top_range_models ← new (OTable (mkTable (tab_keys am) (take 5 (tab_rows am))));
  shorten_column top_range_models cModel;;
  barh_groups top_range_models;;
  save_and_release
    (chart_filename output_prefix (lit "top_models_by_range") timestamp)
    (lit "top models by range");;
  (* Forecasted EV Market *)
  emit Subplots;;
  d ← get_frame df;
  let ev_registration_counts := sort_index (value_counts_year d) in
  let filtered_years := index_le 2023 ev_registration_counts in
  (* np.arange(nan, 2030) cannot compute its length *)
  _ ← match index_min filtered_years.*1 with
      | Some m => mret (arange m (2029 + 1))
      | None => raise ValueError
      end;
  let forecast_years_full := arange 2024 (2029 + 1) in
  forecasted_values_full ←
    match mapM (λ year, forecasted_evs !! inl year) forecast_years_full with
    | Some vs => mret vs
    | None => raise KeyError
    end;
  emit (Plot filtered_years.*1 (Count <$> filtered_years.*2)
             (Some (lit "Actual Registrations")));;
  emit (Plot forecast_years_full (Float <$> forecasted_values_full)
             (Some (lit "Forecasted Registrations")));;
  save_and_release
    (chart_filename output_prefix (lit "ev_market_forecast") timestamp)
    (lit "EV market forecast").

(** *** The forecast *)

Definition exp_growth (x a b : F) : F := fmul a (fexp (fmul b x)).

(** [xs - m] and [xs + m] on the integer array of [np.arange] (64 bits; 32
    on some platforms, which is as good for these values) and a scalar; with
    a NaN scalar every element is NaN. *)
Definition array_sub (xs : list Z) (m : option Z) : list (option Z) :=
  (λ x, (λ m, wrap 64 (x - m)) <$> m) <$> xs.
Definition array_add (xs : list (option Z)) (m : option Z) : list (option Z) :=
  (λ x, x ← x; m ← m; Some (wrap 64 (x + m))) <$> xs.

(** A number read as a float. *)
Definition to_float (x : option Z) : F := from_option F_of_Z fnan x.

(** Dictionary keys: an integer is its value, every NaN is a key of its own. *)
Definition dict_keys (ks : list (option Z)) : list (Z + nat) :=
  imap (λ i k, match k with Some z => inl z | None => inr i end) ks.

(** [dict(zip(keys, values))]: later pairs overwrite earlier ones. *)
Definition dict_zip (ks : list (Z + nat)) (vs : list F) : gmap (Z + nat) F :=
  foldl (λ m kv, <[kv.1 := kv.2]> m) ∅ (zip ks vs).

Definition forecast_future_registrations (df : loc) : M F (gmap (Z + nat) F) :=
  d ← get_frame df;
  let ev_registration_counts := sort_index (value_counts_year d) in
  let filtered_years := index_le 2023 ev_registration_counts in
  let year_min := index_min filtered_years.*1 in
  let x_data := index_sub filtered_years.*1 year_min in
  let y_data := filtered_years.*2 in
  emit (CurveFit x_data y_data);;
  params ← lift (curve_fit W exp_growth x_data y_data);
  let forecast_years := array_sub (arange 2024 (2029 + 1)) year_min in
  let forecasted_values :=
    (λ x, exp_growth (to_float x) params.1 params.2) <$> forecast_years in
  mret (dict_zip (dict_keys (array_add forecast_years year_min)) forecasted_values).

(** *** The entry point *)

(** [setup_logging] only configures the log and leaves no event.  The input
    and output folders are those next to the script's folder; the prefix of
    the charts is the output folder joined with the file's base name up to
    its first dot, ['ev_data']. *)
Definition main : M F unit :=
  if negb (path_exists W (input_folder W)) then
    emit (LogError NoInputFolder)
  else
    emit (Makedirs (output_folder W));;
    let file_path := path_join W (input_folder W) (lit "ev_data.csv") in
    df ← load_data file_path;
    match df with
    | Some df =>
        forecasted_evs ← forecast_future_registrations df;
        emit (Print (Text (nl ++ lit "Forecasted EV Registrations (2024-2029):")));;
        emit (Print (Forecast forecasted_evs));;
        plot_all_charts df forecasted_evs (path_join W (output_folder W) (lit "ev_data"))
    | None => mret ()
    end.
End Script.

(** ** Properties stated about the script *)

(** The table after cleaning: nothing is missing and every row is of the
    target state. *)
Definition cleaned {F} (df : DataFrame F) : Prop :=
  Forall (λ r, notna r ∧ State r = Some (lit "WA")) (records df).

(** What a categorical column guarantees: its categories are distinct and
    every cell that is present is one of them. *)
Definition categorical {F} (df : DataFrame F) : Prop :=
  ∀ c, NoDup (frame_cats df c) ∧
       ∀ r k, r ∈ records df → cell c r = Some k → k ∈ frame_cats df c.

(** [selected] holds [n] greatest of the entries [candidates]. *)
Definition top_n {A} (ge : relation A) (n : nat) (candidates selected : list A) : Prop :=
  (length selected ≤ n)%nat ∧
  length selected = (n `min` length candidates)%nat ∧
  ∃ rest, candidates ≡ₚ selected ++ rest ∧
          ∀ x y, x ∈ selected → y ∈ rest → ge x y.

(** [selected] is a choice of [n] candidates with the greatest scores:
    at most [n] entries with distinct keys, each a candidate with its score,
    and a candidate left out only when [n] are selected, none of them with
    a smaller score. *)
Definition top_by {K V} (ge : relation V) (n : nat) (candidate : K → Prop) (score : K → V)
    (selected : list (K * V)) : Prop :=
  (length selected ≤ n)%nat ∧
  NoDup selected.*1 ∧
  (∀ k v, (k, v) ∈ selected → candidate k ∧ v = score k) ∧
  (∀ k, candidate k → k ∉ selected.*1 →
        length selected = n ∧ ∀ k' v', (k', v') ∈ selected → ge v' (score k)).

(** What SciPy's [curve_fit] does with too few data: fitting [n] parameters
    to fewer than [n] points is refused with an exception (here [n] is 2,
    the parameters of [exp_growth]). *)
Definition needs_two_points {F} (W : World F) : Prop :=
  ∀ f xs ys, (length ys < 2)%nat → ∃ e, curve_fit W f xs ys = inl e.

(** The table [load_data] makes of what the parser returned. *)
Definition cleaned_frame {F} (d : DataFrame F) : DataFrame F :=
  reset_index (select_eq cState (lit "WA") (reset_index (dropna d))).

(** The rows of model year at most [c]. *)
Definition up_to_year {F} (c : Z) (d : DataFrame F) : DataFrame F :=
  mkFrame (filter (λ p, Model_Year p.2 <= c) (frame_rows d)) (frame_cats d).

(** The chart slugs, in the order the charts are drawn. *)
Definition chart_slugs : list str :=
  [lit "ev_adoption_over_time"; lit "top_cities_in_top_counties";
   lit "ev_type_distribution"; lit "top_5_makes"; lit "top_models_in_top_makes";
   lit "average_range_by_year"; lit "top_models_by_range"; lit "ev_market_forecast"].

(** The files written and the lines plotted, read off a trace. *)
Definition saved_files {F} (tr : list (event F)) : list str :=
  omap (λ e, match e with SaveFig f => Some f | _ => None end) tr.

Definition plotted_lines {F} (tr : list (event F))
  : list (list Z * list (num F) * option str) :=
  omap (λ e, match e with Plot x y label => Some (x, y, label) | _ => None end) tr.

(** A three-column frame after [shorten_column] on its second key, and the
    bars [barh_groups] draws for it. *)
Definition shortened {F} (t : Table F) : Table F :=
  mkTable (tab_keys t) ((λ r, (r.1.1, shorten r.1.2, r.2)) <$> tab_rows t).

Definition barh_events {F} (t : Table F) : list (event F) :=
  (λ k, let subset := filter (λ r, r.1.1 = k) (tab_rows t) in
        Barh ((λ r, r.1.2) <$> subset) (snd <$> subset) (Some k))
    <$> unique ((λ r, r.1.1) <$> tab_rows t).

(** The calls of [ax.barh] in a trace: labels, widths and legend label. *)
Definition drawn_bars {F} (tr : list (event F))
  : list (list str * list (num F) * option str) :=
  omap (λ e, match e with Barh y width label => Some (y, width, label) | _ => None end) tr.

(** The grouped tables of the second, fifth and seventh chart, as they are
    when their bars are drawn: [ev_city_distribution_top_counties],
    [top_models] and [top_range_models]. *)
Definition city_table {F} `{!FloatOps F} (d : DataFrame F) : Table F :=
  shortened (count_table cCounty cCity
               (take 5 (pair_counts cCounty cCity (top_counties_data d)))).
Definition model_table {F} `{!FloatOps F} (d : DataFrame F) : Table F :=
  let md := count_table cMake cModel (pair_counts cMake cModel (top_makes_data d)) in
  shortened (mkTable (tab_keys md) (take 5 (tab_rows md))).
Definition range_table {F} `{!FloatOps F} (d : DataFrame F) : Table F :=
  let am := mean_table cMake cModel (pair_means cMake cModel (top_makes_data d)) in
  shortened (mkTable (tab_keys am) (take 5 (tab_rows am))).

(** The single bars of a trace: each call of [ax.barh] draws one bar per
    pair of its two columns. *)
Definition bars {F} (tr : list (event F)) : list (str * num F * option str) :=
  tr ≫= λ e, match e with
              | Barh y width label => (λ b, (b.1, b.2, label)) <$> zip y width
              | _ => []
              end.

(** ** A small run, for the examples *)

(** Integers standing in for floats. *)
#[global] Instance sample_floats : FloatOps Z := {|
  fmul := Z.mul;
  fexp := λ x, 2 ^ x;
  F_of_Z := id;
  fnan := 0;
  fmean := λ xs, foldr Z.add 0 xs / Z.of_nat (length xs);
  fleb := Z.leb
|}.

Definition sample_row (state : string) (year : Z) (make model county city type : string)
    (range : Z) : Row Z :=
  mkRow (Some (lit state)) year (Some (lit make)) (Some (lit model))
        (Some (lit county)) (Some (lit city)) (Some (lit type)) (Some range).

Definition sample_cats (c : CatCol) : list str :=
  match c with
  | cState => [lit "OR"; lit "WA"]
  | cMake => [lit "CHEVROLET"; lit "NISSAN"; lit "TESLA"; lit "TOYOTA"]
  | cModel => [lit "BOLT EV"; lit "LEAF"; lit "MODEL 3"; lit "MODEL Y";
               lit "PRIUS PRIME PLUG-IN"]
  | cCounty => [lit "King"; lit "Kitsap"; lit "Multnomah"; lit "Pierce"]
  | cCity => [lit "Bainbridge Island"; lit "Bellevue"; lit "Portland";
              lit "Seattle"; lit "Tacoma"]
  | cType => [lit "Battery Electric Vehicle (BEV)";
              lit "Plug-in Hybrid Electric Vehicle (PHEV)"]
  end.

Definition bev : string := "Battery Electric Vehicle (BEV)".
Definition phev : string := "Plug-in Hybrid Electric Vehicle (PHEV)".

(** What the parser returns for the sample file: one row of another state,
    one row with a missing make, one row of a year after 2023. *)
Definition sample_csv : DataFrame Z :=
  mkFrame
    [(0%nat, sample_row "WA" 2020 "TESLA" "MODEL 3" "King" "Seattle" bev 250);
     (1%nat, sample_row "WA" 2021 "TESLA" "MODEL Y" "Kitsap" "Bainbridge Island" bev 300);
     (2%nat, sample_row "WA" 2021 "NISSAN" "LEAF" "Pierce" "Tacoma" bev 150);
     (3%nat, sample_row "OR" 2022 "TESLA" "MODEL 3" "Multnomah" "Portland" bev 260);
     (4%nat, sample_row "WA" 2022 "TESLA" "MODEL 3" "King" "Seattle" bev 270);
     (5%nat, mkRow (Some (lit "WA")) 2022 None (Some (lit "LEAF")) (Some (lit "King"))
                   (Some (lit "Seattle")) (Some (lit bev)) (Some 150));
     (6%nat, sample_row "WA" 2023 "CHEVROLET" "BOLT EV" "King" "Bellevue" bev 259);
     (7%nat, sample_row "WA" 2024 "TESLA" "MODEL Y" "King" "Seattle" bev 310);
     (8%nat, sample_row "WA" 2023 "TOYOTA" "PRIUS PRIME PLUG-IN" "King" "Seattle" phev 25)]
    sample_cats.

(** A file whose rows at or before 2023 are all of one year. *)
Definition short_csv : DataFrame Z :=
  mkFrame
    [(0%nat, sample_row "WA" 2023 "TESLA" "MODEL 3" "King" "Seattle" bev 250);
     (1%nat, sample_row "WA" 2023 "NISSAN" "LEAF" "Pierce" "Tacoma" bev 150);
     (2%nat, sample_row "WA" 2024 "TESLA" "MODEL Y" "King" "Seattle" bev 310)]
    sample_cats.

Definition sample_path_join (a b : str) : str := a ++ lit "/" ++ b.

(** A solver that, like SciPy's, refuses fewer points than parameters; on
    more it answers with the first count and a unit rate. *)
Definition sample_curve_fit (f : Z → Z → Z → Z) (xs : list Z) (ys : list nat)
    : exn + (Z * Z) :=
  match ys with
  | y :: _ :: _ => inr (Z.of_nat y, 1)
  | _ => inl TypeError
  end.

Definition sample_clock (n : nat) : datetime :=
  mkDatetime 2025 3 9 23 59 (N.of_nat n mod 60).

Definition sample_world (csv : exn + DataFrame Z) : World Z :=
  mkWorld (lit "input") (lit "output") sample_path_join (λ _, true)
          (λ _ _, csv) sample_curve_fit sample_clock.

Definition sample_table : DataFrame Z := cleaned_frame sample_csv.
Definition short_table : DataFrame Z := cleaned_frame short_csv.

Definition empty_state : state Z := mkState [] 0 [].
Definition sample_state : state Z := mkState [OFrame sample_table] 0 [].
Definition short_state : state Z := mkState [OFrame short_table] 0 [].

Definition sample_forecast : gmap (Z + nat) Z :=
  dict_zip (inl <$> [2024; 2025; 2026; 2027; 2028; 2029]) [16; 32; 64; 128; 256; 512].

(** A table whose rows are all of years after 2023, the sample table with
    its rows in reverse order, a forecast that lacks its last year, and a
    store that holds the table of the second chart. *)
Definition late_table : DataFrame Z :=
  mkFrame
    [(0%nat, sample_row "WA" 2024 "TESLA" "MODEL Y" "King" "Seattle" bev 310);
     (1%nat, sample_row "WA" 2025 "NISSAN" "LEAF" "Pierce" "Tacoma" bev 150)]
    sample_cats.
Definition late_state : state Z := mkState [OFrame late_table] 0 [].

Definition reversed_table : DataFrame Z :=
  mkFrame (reverse (frame_rows sample_table)) (frame_cats sample_table).

Definition partial_forecast : gmap (Z + nat) Z := delete (inl 2029) sample_forecast.

Definition city_state : state Z := mkState [OTable (city_table sample_table)] 0 [].

(** A cleaned table with more candidates than places: five counties with
    rows (and one category without), seven cities in the three largest, six
    makes, and seven models of the three largest makes; two counties and two
    makes tie. *)
Definition wide_cats (c : CatCol) : list str :=
  match c with
  | cState => [lit "WA"]
  | cMake => [lit "CHEVROLET"; lit "FORD"; lit "KIA"; lit "NISSAN"; lit "TESLA";
              lit "TOYOTA"]
  | cModel => [lit "ARIYA"; lit "BOLT EV"; lit "LEAF"; lit "MODEL 3"; lit "MODEL S";
               lit "MODEL Y"; lit "MUSTANG MACH-E"; lit "PRIUS PRIME"; lit "VOLT"]
  | cCounty => [lit "Clark"; lit "King"; lit "Kitsap"; lit "Pierce"; lit "Thurston"]
  | cCity => [lit "Bainbridge Island"; lit "Bellevue"; lit "Bremerton"; lit "Olympia";
              lit "Puyallup"; lit "Redmond"; lit "Seattle"; lit "Tacoma"]
  | cType => [lit "Battery Electric Vehicle (BEV)";
              lit "Plug-in Hybrid Electric Vehicle (PHEV)"]
  end.

Definition wide_table : DataFrame Z :=
  mkFrame
    [(0%nat, sample_row "WA" 2020 "TESLA" "MODEL 3" "King" "Seattle" bev 250);
     (1%nat, sample_row "WA" 2021 "TESLA" "MODEL Y" "King" "Seattle" bev 300);
     (2%nat, sample_row "WA" 2021 "TESLA" "MODEL S" "King" "Bellevue" bev 400);
     (3%nat, sample_row "WA" 2022 "NISSAN" "LEAF" "King" "Redmond" bev 150);
     (4%nat, sample_row "WA" 2022 "NISSAN" "ARIYA" "Pierce" "Tacoma" bev 280);
     (5%nat, sample_row "WA" 2022 "CHEVROLET" "BOLT EV" "Pierce" "Puyallup" bev 259);
     (6%nat, sample_row "WA" 2023 "CHEVROLET" "VOLT" "Kitsap" "Bremerton" phev 53);
     (7%nat, sample_row "WA" 2023 "TESLA" "MODEL 3" "Kitsap" "Bainbridge Island" bev 270);
     (8%nat, sample_row "WA" 2023 "FORD" "MUSTANG MACH-E" "Thurston" "Olympia" bev 230);
     (9%nat, sample_row "WA" 2023 "TOYOTA" "PRIUS PRIME" "King" "Seattle" phev 25)]
    wide_cats.

(** ** Lists, counts and sorting *)

Section Counting.
Context {A : Type} `{EqDecision A}.
Implicit Types (l ks : list A) (a x : A).
Local Arguments occurrences : simpl never.

Lemma elem_of_unique l x : x ∈ unique l ↔ x ∈ l.
Proof.
  unfold unique. by rewrite elem_of_reverse, elem_of_remove_dups, elem_of_reverse.
Qed.

Lemma NoDup_unique l : NoDup (unique l).
Proof. unfold unique. rewrite reverse_Permutation. apply NoDup_remove_dups. Qed.

Lemma occurrences_cons a x l :
  occurrences a (x :: l) = ((if decide (x = a) then 1 else 0) + occurrences a l)%nat.
Proof. unfold occurrences. rewrite filter_cons. by destruct (decide (x = a)). Qed.

Lemma occurrences_nil a : occurrences a [] = 0%nat.
Proof. done. Qed.

(** Over distinct keys the counts add up to the number of elements that
    are one of the keys. *)
Lemma sum_occurrences ks l :
  NoDup ks →
  sum_list ((λ k, occurrences k l) <$> ks) = length (filter (λ x, x ∈ ks) l).
Proof.
  intros Hnd. induction l as [|x l IH].
  - cbn. clear Hnd. induction ks as [|k ks IHks]; [done|]. cbn. by rewrite IHks.
  - assert (sum_list ((λ k, occurrences k (x :: l)) <$> ks) =
            ((if decide (x ∈ ks) then 1 else 0) +
             sum_list ((λ k, occurrences k l) <$> ks))%nat) as ->.
    { clear IH. induction Hnd as [|k ks Hk Hnd IH]; [done|]. cbn.
      rewrite IH, occurrences_cons.
      destruct (decide (x = k)) as [->|Hne].
      - rewrite (decide_True (P := k ∈ k :: ks)) by left.
        rewrite (decide_False (P := k ∈ ks)) by done. lia.
      - destruct (decide (x ∈ ks)) as [Hin|Hin].
        + rewrite (decide_True (P := x ∈ k :: ks)) by (by right). lia.
        + rewrite (decide_False (P := x ∈ k :: ks)); [lia|].
          by intros [?|?]%elem_of_cons. }
    rewrite IH, filter_cons. by destruct (decide (x ∈ ks)).
Qed.

Lemma sum_occurrences_all ks l :
  NoDup ks → (∀ x, x ∈ l → x ∈ ks) →
  sum_list ((λ k, occurrences k l) <$> ks) = length l.
Proof.
  intros Hnd Hall. rewrite sum_occurrences by done. f_equal.
  induction l as [|x l IH]; [done|].
  rewrite filter_cons_True by (apply Hall; left).
  f_equal. apply IH. intros y Hy. apply Hall. by right.
Qed.
End Counting.

Section Sorting.
Context {F : Type} `{!FloatOps F}.

#[global] Instance count_ge_total {K} : Total (@count_ge K).
Proof. intros a b. unfold count_ge. lia. Qed.
#[global] Instance count_ge_trans {K} : Transitive (@count_ge K).
Proof. intros a b c. unfold count_ge. lia. Qed.
#[global] Instance key_le_total {V} : Total (@key_le V).
Proof. intros a b. unfold key_le. lia. Qed.
#[global] Instance key_le_trans {V} : Transitive (@key_le V).
Proof. intros a b c. unfold key_le. lia. Qed.

Lemma insert_desc_Permutation {A} (R : relation A) `{!RelDecision R} x (l : list A) :
  insert_desc R x l ≡ₚ x :: l.
Proof.
  induction l as [|y l IH]; [done|]. cbn.
  destruct (decide (R x y)); [done|]. by rewrite IH, Permutation_swap.
Qed.

Lemma sort_desc_Permutation {A} (R : relation A) `{!RelDecision R} (l : list A) :
  sort_desc R l ≡ₚ l.
Proof.
  induction l as [|x l IH]; [done|].
  change (sort_desc R (x :: l)) with (insert_desc R x (sort_desc R l)).
  by rewrite insert_desc_Permutation, IH.
Qed.

Lemma sort_counts_desc_Permutation {K} (s : list (K * nat)) : sort_counts_desc s ≡ₚ s.
Proof. apply sort_desc_Permutation. Qed.

Lemma sort_floats_desc_Permutation {K} (s : list (K * F)) : sort_floats_desc s ≡ₚ s.
Proof.
  unfold sort_floats_desc. rewrite sort_desc_Permutation.
  apply filter_app_complement.
Qed.

(** Inserting into a sorted list keeps it sorted, when the new entry
    compares with every entry of the list. *)
Lemma insert_desc_sorted {A} (R : relation A) `{!RelDecision R} x (l : list A) :
  (∀ y, y ∈ l → R x y ∨ R y x) →
  (∀ y z, y ∈ l → z ∈ l → R x y → R y z → R x z) →
  StronglySorted R l → StronglySorted R (insert_desc R x l).
Proof.
  intros Htot Htrans Hs. induction Hs as [|y l Hs IH Hy]; cbn.
  - repeat constructor.
  - destruct (decide (R x y)) as [Hxy|Hxy].
    + constructor; [by constructor|]. constructor; [done|].
      rewrite Forall_forall in Hy |- *. intros z Hz.
      apply (Htrans y z); [left|by right|done|by apply Hy].
    + constructor.
      * apply IH.
        -- intros z Hz. apply Htot. by right.
        -- intros z1 z2 Hz1 Hz2. apply Htrans; by right.
      * rewrite Forall_forall in Hy |- *. intros z Hz.
        rewrite insert_desc_Permutation in Hz. apply elem_of_cons in Hz as [->|Hz].
        -- destruct (Htot y) as [?|?]; [left|done..].
        -- by apply Hy.
Qed.

(** The sort sorts, when the relation is total and transitive on the
    entries of the list. *)
Lemma sort_desc_sorted {A} (R : relation A) `{!RelDecision R} (l : list A) :
  (∀ x y, x ∈ l → y ∈ l → R x y ∨ R y x) →
  (∀ x y z, x ∈ l → y ∈ l → z ∈ l → R x y → R y z → R x z) →
  StronglySorted R (sort_desc R l).
Proof.
  induction l as [|x l IH]; intros Htot Htrans; [constructor|].
  change (sort_desc R (x :: l)) with (insert_desc R x (sort_desc R l)).
  apply insert_desc_sorted.
  - intros y Hy. rewrite sort_desc_Permutation in Hy. apply Htot; [left|by right].
  - intros y z Hy Hz. rewrite sort_desc_Permutation in Hy, Hz.
    apply Htrans; [left|by right|by right].
  - apply IH.
    + intros y z Hy Hz. apply Htot; by right.
    + intros y z w Hy Hz Hw. apply Htrans; by right.
Qed.

(** The first [n] of a list sorted into descending order are [n]
    greatest. *)
Lemma top_n_take_sort {A} (R : relation A) `{!RelDecision R} (n : nat) (l : list A) :
  (∀ x y, x ∈ l → y ∈ l → R x y ∨ R y x) →
  (∀ x y z, x ∈ l → y ∈ l → z ∈ l → R x y → R y z → R x z) →
  top_n R n l (take n (sort_desc R l)).
Proof.
  intros Htot Htrans.
  assert (length (sort_desc R l) = length l) as Hlen
    by apply Permutation_length, sort_desc_Permutation.
  split_and!.
  - rewrite length_take. lia.
  - by rewrite length_take, Hlen.
  - exists (drop n (sort_desc R l)). rewrite take_drop. split.
    + symmetry. apply sort_desc_Permutation.
    + pose proof (sort_desc_sorted R l Htot Htrans) as Hs.
      rewrite <-(take_drop n (sort_desc R l)) in Hs.
      apply StronglySorted_app in Hs as (Hs & _ & _). exact Hs.
Qed.

Lemma sum_sort_counts {K} (s : list (K * nat)) :
  sum_list (sort_counts_desc s).*2 = sum_list s.*2.
Proof. by rewrite sort_counts_desc_Permutation. Qed.

Lemma sum_sort_index (s : list (Z * nat)) :
  sum_list (sort_index s).*2 = sum_list s.*2.
Proof. unfold sort_index. by rewrite merge_sort_Permutation. Qed.
End Sorting.

(** ** The aggregations *)

Section Aggregations.
Context {F : Type} `{!FloatOps F}.
Implicit Types df : DataFrame F.

Lemma notna_cell (r : Row F) c : notna r → is_Some (cell c r).
Proof.
  unfold notna. rewrite !andb_True, !bool_decide_spec.
  destruct c; cbn; tauto.
Qed.

Lemma len_records df : length (records df) = len df.
Proof. unfold records, len. apply length_fmap. Qed.

Lemma sum_year_counts df : sum_list (ev_adoption_by_year df).*2 = len df.
Proof.
  unfold ev_adoption_by_year, value_counts_year.
  rewrite sum_sort_index, sum_sort_counts, <-list_fmap_compose.
  change (snd ∘ _) with (λ y, occurrences y (years df)).
  rewrite sum_occurrences_all; [|apply NoDup_unique|by intros x ?%elem_of_unique].
  unfold years. by rewrite length_fmap, len_records.
Qed.

Lemma sum_category_counts c df :
  categorical df → cleaned df → sum_list (value_counts c df).*2 = len df.
Proof.
  intros Hcat Hclean. destruct (Hcat c) as [Hnd Hin].
  unfold value_counts, category_counts.
  rewrite sum_sort_counts, <-list_fmap_compose.
  change (snd ∘ _) with ((λ v, occurrences v (column c df)) ∘ Some).
  rewrite list_fmap_compose, sum_occurrences_all.
  - unfold column. by rewrite length_fmap, len_records.
  - apply NoDup_fmap; [apply _|done].
  - intros v (r & -> & Hr)%list_elem_of_fmap.
    unfold cleaned in Hclean. rewrite Forall_forall in Hclean.
    destruct (Hclean r Hr) as [Hna _].
    destruct (notna_cell r c Hna) as [k Hk]. rewrite Hk.
    apply list_elem_of_fmap. exists k. split; [done|]. by apply (Hin r).
Qed.

(** C5.  On a cleaned table the per-year counts add up to the number of
    rows, and so do the per-county and the per-vehicle-type counts: each
    aggregation accounts for every row exactly once. *)
Theorem count_aggregations_partition df :
  categorical df → cleaned df →
  sum_list (ev_adoption_by_year df).*2 = len df ∧
  sum_list (ev_county_distribution df).*2 = len df ∧
  sum_list (ev_type_distribution df).*2 = len df.
Proof.
  intros Hcat Hclean. split_and!.
  - apply sum_year_counts.
  - by apply sum_category_counts.
  - by apply sum_category_counts.
Qed.

(** C8.  A label longer than 12 characters is shown as its first 12
    characters followed by three dots; a label of at most 12 characters,
    so also one of exactly 12, is shown unchanged. *)
Theorem shorten_spec (x : str) :
  ((12 < length x)%nat →
     shorten x = take 12 x ++ lit "..." ∧ length (shorten x) = 15%nat) ∧
  ((length x ≤ 12)%nat → shorten x = x).
Proof.
  unfold shorten. split; intros Hlen.
  - rewrite decide_True by done. split; [done|].
    rewrite length_app, length_take. change (length ellipsis) with 3%nat. lia.
  - rewrite decide_False by lia. done.
Qed.
End Aggregations.

(** ** Running the script, step by step *)

Section Running.
Context {F : Type} `{!FloatOps F}.
Implicit Types (s : state F) (h objs : list (pyobj F)) (n i l : nat) (tr : list (event F)).

Lemma bind_ret_eq {A B} (m : M F A) (k : A → M F B) s a s' :
  m s = (Ret a, s') → (m ≫= k) s = k a s'.
Proof. unfold mbind, M_bind. by intros ->. Qed.

Lemma bind_raise_eq {A B} (m : M F A) (k : A → M F B) s e s' :
  m s = (Raise e, s') → (m ≫= k) s = (Raise e, s').
Proof. unfold mbind, M_bind. by intros ->. Qed.

Lemma emit_eq e h n tr :
  emit e (mkState h n tr) = (Ret (), mkState h (S n) (tr ++ [e])).
Proof. done. Qed.

Lemma new_eq o h objs n tr :
  new o (mkState (h ++ objs) n tr) =
    (Ret (length h + length objs)%nat, mkState (h ++ (objs ++ [o])) n tr).
Proof. unfold new. cbn. by rewrite length_app, app_assoc. Qed.

Lemma lookup_new h objs i : (h ++ objs) !! (length h + i)%nat = objs !! i.
Proof. rewrite lookup_app_r by lia. f_equal. lia. Qed.

Lemma get_frame_old l d h objs n tr :
  h !! l = Some (OFrame d) →
  get_frame l (mkState (h ++ objs) n tr) = (Ret d, mkState (h ++ objs) n tr).
Proof.
  intros Hl. unfold get_frame, get, mbind, M_bind. cbn.
  by rewrite (lookup_app_l_Some _ _ _ _ Hl).
Qed.

Lemma get_frame_new i d h objs n tr :
  objs !! i = Some (OFrame d) →
  get_frame (length h + i)%nat (mkState (h ++ objs) n tr) = (Ret d, mkState (h ++ objs) n tr).
Proof.
  intros Hl. unfold get_frame, get, mbind, M_bind. cbn.
  by rewrite lookup_new, Hl.
Qed.

Lemma get_table_new i t h objs n tr :
  objs !! i = Some (OTable t) →
  get_table (length h + i)%nat (mkState (h ++ objs) n tr) = (Ret t, mkState (h ++ objs) n tr).
Proof.
  intros Hl. unfold get_table, get, mbind, M_bind. cbn.
  by rewrite lookup_new, Hl.
Qed.

Lemma setitem_new i c vs o o' h objs n tr :
  objs !! i = Some o → setitem_obj c vs o = Some o' →
  setitem (length h + i)%nat c vs (mkState (h ++ objs) n tr) =
    (Ret (), mkState (h ++ <[i := o']> objs) n tr).
Proof.
  intros Hl Hset. unfold setitem. cbn.
  by rewrite lookup_new, Hl, Hset, insert_app_r.
Qed.
End Running.

(** One step of a run: the first action of a sequence is replaced by its
    result. *)
Ltac run_action :=
  first
    [ apply emit_eq
    | apply new_eq
    | apply get_frame_old; eassumption
    | apply get_frame_new; reflexivity
    | apply get_table_new; reflexivity
    | reflexivity ].

Ltac step :=
  lazymatch goal with
  | |- context [ (?m ≫= ?k) ?s ] =>
      first [ erewrite (bind_ret_eq m k s) by run_action
            | erewrite (bind_raise_eq m k s) by run_action ];
      cbn [app length]
  end.

(** ** The yearly counts and their filter *)

Section Filtering.
Context {A B : Type}.

(** Filtering on a field and projecting the field commute. *)
Lemma fmap_filter (f : A → B) (P : B → Prop)
    `{∀ y, Decision (P y)} `{∀ x, Decision (P (f x))} (l : list A) :
  f <$> filter (λ x, P (f x)) l = filter P (f <$> l).
Proof.
  induction l as [|x l IH]; [done|]. rewrite fmap_cons, !filter_cons.
  repeat case_decide; try done; by rewrite ?fmap_cons, IH.
Qed.

Lemma StronglySorted_filter (R : relation A) (P : A → Prop) `{∀ x, Decision (P x)}
    (l : list A) :
  StronglySorted R l → StronglySorted R (filter P l).
Proof.
  induction 1 as [|x l Hs IH Hx]; [constructor|].
  rewrite filter_cons. destruct (decide (P x)); [|done].
  constructor; [done|]. rewrite Forall_forall in *.
  intros y [_ Hy]%list_elem_of_filter. auto.
Qed.

Lemma length_le_1 (l : list A) :
  NoDup l → (∀ x y, x ∈ l → y ∈ l → x = y) → (length l < 2)%nat.
Proof.
  intros Hnd Heq. destruct l as [|x [|y l]]; cbn; [lia..|].
  exfalso. inv Hnd. assert (x = y) as -> by (apply Heq; set_solver).
  set_solver.
Qed.
End Filtering.

Section Years.
Context {F : Type} `{!FloatOps F}.
Implicit Types (d : DataFrame F) (c y : Z).
Local Arguments occurrences : simpl never.

Lemma occurrences_filter (P : Z → Prop) `{∀ x, Decision (P x)} y (l : list Z) :
  P y → occurrences y (filter P l) = occurrences y l.
Proof.
  intros Hy. unfold occurrences. rewrite list_filter_filter. f_equal.
  apply list_filter_iff. intros x. split; [tauto|]. by intros ->.
Qed.

Lemma adoption_keys d : (ev_adoption_by_year d).*1 ≡ₚ unique (years d).
Proof.
  unfold ev_adoption_by_year, sort_index, value_counts_year.
  rewrite merge_sort_Permutation, sort_counts_desc_Permutation, <-list_fmap_compose.
  change (fst ∘ _) with (@id Z). by rewrite list_fmap_id.
Qed.

Lemma elem_of_adoption d e :
  e ∈ ev_adoption_by_year d ↔ e.1 ∈ years d ∧ e.2 = occurrences e.1 (years d).
Proof.
  unfold ev_adoption_by_year, sort_index, value_counts_year.
  rewrite merge_sort_Permutation, sort_counts_desc_Permutation, list_elem_of_fmap. split.
  - intros (y & -> & Hy). rewrite elem_of_unique in Hy. done.
  - intros [Hy He]. exists e.1. rewrite elem_of_unique. split; [|done].
    destruct e; cbn in *; by subst.
Qed.

Lemma NoDup_adoption_keys d : NoDup (ev_adoption_by_year d).*1.
Proof. rewrite adoption_keys. apply NoDup_unique. Qed.

Lemma adoption_sorted d : StronglySorted key_le (ev_adoption_by_year d).
Proof. apply StronglySorted_merge_sort; apply _. Qed.

Lemma elem_of_filtered c d e :
  e ∈ index_le c (ev_adoption_by_year d) ↔
    e.1 ∈ years d ∧ e.1 <= c ∧ e.2 = occurrences e.1 (years d).
Proof. unfold index_le. rewrite list_elem_of_filter, elem_of_adoption. tauto. Qed.

Lemma elem_of_filtered_keys c d y :
  y ∈ (index_le c (ev_adoption_by_year d)).*1 ↔ y ∈ years d ∧ y <= c.
Proof.
  rewrite list_elem_of_fmap. split.
  - intros (e & -> & He%elem_of_filtered). tauto.
  - intros [Hy Hc]. exists (y, occurrences y (years d)).
    rewrite elem_of_filtered. done.
Qed.

Lemma NoDup_filtered_keys c d : NoDup (index_le c (ev_adoption_by_year d)).*1.
Proof.
  unfold index_le. rewrite (fmap_filter fst (λ y, y <= c)).
  apply NoDup_filter, NoDup_adoption_keys.
Qed.

Lemma years_up_to c d : years (up_to_year c d) = filter (λ y, y <= c) (years d).
Proof.
  unfold years, records, up_to_year. cbn [frame_rows].
  rewrite <-!list_fmap_compose. apply (fmap_filter (Model_Year ∘ snd) (λ y, y <= c)).
Qed.

(** Rows of a later year have no part in the filtered yearly counts. *)
Lemma filtered_up_to c d :
  index_le c (ev_adoption_by_year d) = ev_adoption_by_year (up_to_year c d).
Proof.
  apply (StronglySorted_unique_strong key_le).
  - intros [y1 n1] [y2 n2] (H1 & Hc & Hn1)%elem_of_filtered (H2 & Hn2)%elem_of_adoption.
    unfold key_le. cbn [fst snd] in *. intros ??. assert (y1 = y2) as <- by lia.
    rewrite years_up_to, (occurrences_filter (λ y, y <= c)) in Hn2 by done.
    by subst.
  - apply StronglySorted_filter, adoption_sorted.
  - apply adoption_sorted.
  - apply NoDup_Permutation.
    + eapply NoDup_fmap_1, NoDup_filtered_keys.
    + eapply NoDup_fmap_1, NoDup_adoption_keys.
    + intros [y n]. rewrite elem_of_filtered, elem_of_adoption, years_up_to.
      cbn [fst snd]. rewrite list_elem_of_filter. split.
      * intros (? & ? & ->). by rewrite (occurrences_filter (λ y, y <= c)).
      * intros ([? ?] & ->). by rewrite (occurrences_filter (λ y, y <= c)).
Qed.

Lemma index_min_cons x (l : list Z) :
  index_min (x :: l) = Some (from_option (Z.min x) x (index_min l)).
Proof. done. Qed.

Lemma index_min_spec (l : list Z) m :
  index_min l = Some m → m ∈ l ∧ ∀ y, y ∈ l → m <= y.
Proof.
  revert m. induction l as [|x l IH]; intros m; [done|].
  rewrite index_min_cons. destruct (index_min l) as [m'|] eqn:Hm; cbn; intros [= <-].
  - destruct (IH m' eq_refl) as [Hin Hle]. split.
    + destruct (Z.min_spec x m') as [[_ ->]|[_ ->]]; [left|by right].
    + intros y [->|Hy]%elem_of_cons; [lia|]. specialize (Hle y Hy). lia.
  - destruct l; [|done]. split; [left|]. by intros y ->%list_elem_of_singleton.
Qed.

Lemma index_min_None (l : list Z) : index_min l = None ↔ l = [].
Proof. destruct l; [done|]. by rewrite index_min_cons. Qed.
End Years.

(** ** The forecast *)

Section Forecast.
Context {F : Type} `{!FloatOps F} (W : World F).
Implicit Types (d : DataFrame F).
Local Arguments wrap : simpl never.

Ltac int64_bounds := change (2 ^ (64 - 1)) with 9223372036854775808; lia.

Lemma wrap_small w z : 0 < w → - 2 ^ (w - 1) <= z < 2 ^ (w - 1) → wrap w z = z.
Proof.
  intros Hw Hz. unfold wrap.
  assert (2 ^ w = 2 * 2 ^ (w - 1)) as ->.
  { rewrite <-Z.pow_succ_r by lia. f_equal. lia. }
  rewrite Z.mod_small; lia.
Qed.

Lemma forecast_run l d h objs n tr :
  h !! l = Some (OFrame d) →
  let filtered := index_le 2023 (ev_adoption_by_year d) in
  let year_min := index_min filtered.*1 in
  let x_data := index_sub filtered.*1 year_min in
  let forecast_years := array_sub (arange 2024 (2029 + 1)) year_min in
  let st := mkState (h ++ objs) (S n) (tr ++ [CurveFit x_data filtered.*2]) in
  forecast_future_registrations W l (mkState (h ++ objs) n tr) =
    match curve_fit W exp_growth x_data filtered.*2 with
    | inl e => (Raise e, st)
    | inr p =>
        (Ret (dict_zip (dict_keys (array_add forecast_years year_min))
                ((λ x, exp_growth (to_float x) p.1 p.2) <$> forecast_years)), st)
    end.
Proof.
  intros Hl. cbn zeta. unfold forecast_future_registrations.
  do 2 step. fold (ev_adoption_by_year d).
  destruct (curve_fit W exp_growth _ _) as [e|p]; cbn [lift].
  - by erewrite bind_raise_eq by reflexivity.
  - by step.
Qed.

Lemma forecast_keys m :
  int16 m →
  dict_keys (array_add (array_sub (arange 2024 (2029 + 1)) (Some m)) (Some m)) =
    inl <$> [2024; 2025; 2026; 2027; 2028; 2029].
Proof.
  unfold int16. intros Hm.
  change (arange 2024 (2029 + 1)) with [2024; 2025; 2026; 2027; 2028; 2029].
  cbn. rewrite !(wrap_small 64 (_ - m)) by int64_bounds.
  rewrite !(wrap_small 64) by int64_bounds.
  repeat f_equal; lia.
Qed.

Lemma forecast_values m a b :
  int16 m →
  (λ x, exp_growth (to_float x) a b) <$> array_sub (arange 2024 (2029 + 1)) (Some m) =
    (λ y, exp_growth (F_of_Z (y - m)) a b) <$> [2024; 2025; 2026; 2027; 2028; 2029].
Proof.
  unfold int16. intros Hm.
  change (arange 2024 (2029 + 1)) with [2024; 2025; 2026; 2027; 2028; 2029].
  cbn. by rewrite !(wrap_small 64) by int64_bounds.
Qed.

Lemma forecast_dict (v : Z → F) :
  let m := dict_zip (inl <$> [2024; 2025; 2026; 2027; 2028; 2029])
                    (v <$> [2024; 2025; 2026; 2027; 2028; 2029]) in
  size m = 6%nat ∧
  dom m = list_to_set (inl <$> [2024; 2025; 2026; 2027; 2028; 2029]) ∧
  ∀ y, 2024 <= y <= 2029 → m !! inl y = Some (v y).
Proof.
  cbn zeta. unfold dict_zip. cbn [fmap list_fmap zip zip_with foldl fst snd].
  split_and!.
  - rewrite !map_size_insert_None; [by rewrite map_size_empty|..]; by simplify_map_eq.
  - rewrite !dom_insert_L, dom_empty_L. cbn. set_solver.
  - intros y Hy.
    assert (y = 2024 ∨ y = 2025 ∨ y = 2026 ∨ y = 2027 ∨ y = 2028 ∨ y = 2029)
      as Hcases by lia.
    destruct_or! Hcases; subst y; by simplify_map_eq.
Qed.
End Forecast.

(** ** The renderer *)

Section Rendering.
Context {F : Type} `{!FloatOps F} (W : World F).
Implicit Types (h objs : list (pyobj F)) (n i l : nat) (tr : list (event F)).

Lemma now_eq h n tr :
  now W (mkState h n tr) = (Ret (wall_clock W n), mkState h n tr).
Proof. done. Qed.

Lemma save_and_release_eq filename what h n tr :
  save_and_release filename what (mkState h n tr) =
    (Ret (), mkState h (S (S (S (S n))))
               (tr ++ [SaveFig filename; Close; GcCollect; LogInfo (SavedPlot what)])).
Proof.
  unfold save_and_release. repeat step. rewrite emit_eq, <-!app_assoc. reflexivity.
Qed.

Lemma shorten_zip (rows : list (str * str * num F)) :
  zip_with (λ r v, (r.1.1, v, r.2)) rows (shorten <$> ((λ r, r.1.2) <$> rows)) =
    (λ r, (r.1.1, shorten r.1.2, r.2)) <$> rows.
Proof. induction rows as [|r rows IH]; [done|]. cbn. by rewrite IH. Qed.

Lemma shorten_column_new i c1 c t h objs n tr :
  objs !! i = Some (OTable t) → tab_keys t = (c1, c) → c1 ≠ c →
  shorten_column (length h + i)%nat c (mkState (h ++ objs) n tr) =
    (Ret (), mkState (h ++ <[i := OTable (shortened t)]> objs) n tr).
Proof.
  intros Hi Hk Hne. unfold shorten_column.
  erewrite bind_ret_eq by (by apply get_table_new).
  unfold key_column. rewrite Hk. cbn [fst snd].
  rewrite decide_False, decide_True by done. step.
  apply setitem_new with (o := OTable t); [done|].
  unfold setitem_obj. rewrite !length_fmap, Hk. cbn [fst snd].
  rewrite (decide_True (P := _ = _)) by done.
  rewrite decide_False, decide_True by done.
  unfold shortened. by rewrite shorten_zip, Hk.
Qed.

Lemma for_each_barh i t (ks : list str) h objs n tr :
  objs !! i = Some (OTable t) →
  for_each ks (λ k,
    t ← get_table (length h + i)%nat;
    let subset := filter (λ r, r.1.1 = k) (tab_rows t) in
    emit (Barh ((λ r, r.1.2) <$> subset) (snd <$> subset) (Some k)))
    (mkState (h ++ objs) n tr) =
  (Ret (), mkState (h ++ objs) (length ks + n)%nat
     (tr ++ ((λ k, let subset := filter (λ r, r.1.1 = k) (tab_rows t) in
                   Barh ((λ r, r.1.2) <$> subset) (snd <$> subset) (Some k)) <$> ks))).
Proof.
  intros Hi. revert n tr. induction ks as [|k ks IH]; intros n tr.
  - cbn. by rewrite app_nil_r.
  - cbn [for_each]. erewrite bind_ret_eq; last first.
    { erewrite bind_ret_eq by (by apply get_table_new). apply emit_eq. }
    rewrite IH, <-app_assoc. cbn [length fmap list_fmap app].
    replace (length ks + S n)%nat with (S (length ks + n)) by lia. done.
Qed.

Lemma barh_groups_new i t h objs n tr :
  objs !! i = Some (OTable t) →
  barh_groups (length h + i)%nat (mkState (h ++ objs) n tr) =
    (Ret (), mkState (h ++ objs)
               (length (unique ((λ r, r.1.1) <$> tab_rows t)) + n)%nat
               (tr ++ barh_events t)).
Proof.
  intros Hi. unfold barh_groups.
  erewrite bind_ret_eq by (by apply get_table_new).
  by rewrite (for_each_barh i t).
Qed.

Lemma saved_files_app (tr1 tr2 : list (event F)) :
  saved_files (tr1 ++ tr2) = saved_files tr1 ++ saved_files tr2.
Proof. apply omap_app. Qed.

Lemma plotted_lines_app (tr1 tr2 : list (event F)) :
  plotted_lines (tr1 ++ tr2) = plotted_lines tr1 ++ plotted_lines tr2.
Proof. apply omap_app. Qed.

Lemma saved_files_barh (t : Table F) : saved_files (barh_events t) = [].
Proof. unfold barh_events. by induction (unique _). Qed.

Lemma plotted_lines_barh (t : Table F) : plotted_lines (barh_events t) = [].
Proof. unfold barh_events. by induction (unique _). Qed.
End Rendering.

Lemma ret_eq {F A} (a : A) (s : state F) : (mret a : M F A) s = (Ret a, s).
Proof. done. Qed.
Lemma raise_eq {F A} (e : exn) (s : state F) : raise (A := A) e s = (Raise e, s).
Proof. done. Qed.

Ltac run_chart_action m :=
  lazymatch m with
  | emit _ => apply emit_eq
  | new _ => apply new_eq
  | now _ => apply now_eq
  | save_and_release _ _ => apply save_and_release_eq
  | get_frame _ =>
      first [ apply get_frame_old; eassumption | apply get_frame_new; reflexivity ]
  | get_table _ => apply get_table_new; reflexivity
  | shorten_column _ _ =>
      eapply shorten_column_new; [reflexivity | reflexivity | discriminate]
  | barh_groups _ => apply barh_groups_new; reflexivity
  | mret _ => apply ret_eq
  | raise _ => apply raise_eq
  end.

Ltac chart_step :=
  lazymatch goal with
  | |- context [ (?m ≫= ?k) ?s ] =>
      lazymatch m with
      | raise _ => erewrite (bind_raise_eq m k s) by apply raise_eq
      | _ => erewrite (bind_ret_eq m k s) by run_chart_action m
      end;
      cbn [app length insert list_insert]
  end.

Section Plot.
Context {F : Type} `{!FloatOps F} (W : World F).
Implicit Types (h objs : list (pyobj F)) (n i l : nat) (tr : list (event F)).

Lemma plot_run l d fm p h n tr :
  h !! l = Some (OFrame d) →
  let ts := strftime (wall_clock W n) in
  let filtered := index_le 2023 (ev_adoption_by_year d) in
  let avg := mean_range_by_year d in
  ∃ r objs n' evs,
    plot_all_charts W l fm p (mkState h n tr) = (r, mkState (h ++ objs) n' (tr ++ evs)) ∧
    (n < n')%nat ∧
    match r with
    | Ret _ =>
        saved_files evs = (λ slug, chart_filename p slug ts) <$> chart_slugs ∧
        ∃ values, mapM (λ y, fm !! inl y) (arange 2024 (2029 + 1)) = Some values ∧
          plotted_lines evs =
            [(avg.*1, Float <$> avg.*2, None);
             (filtered.*1, Count <$> filtered.*2, Some (lit "Actual Registrations"));
             (arange 2024 (2029 + 1), Float <$> values,
              Some (lit "Forecasted Registrations"))]
    | Raise e =>
        saved_files evs = (λ slug, chart_filename p slug ts) <$> take 7 chart_slugs ∧
        plotted_lines evs = [(avg.*1, Float <$> avg.*2, None)]
    end.
Proof.
  intros Hl ts filtered avg.
  destruct (index_min filtered.*1) as [m|] eqn:Hmin;
    [destruct (mapM (λ y, fm !! inl y) (arange 2024 (2029 + 1))) as [values|] eqn:Hfm|].
  all: subst filtered; unfold ev_adoption_by_year in *.
  all: eexists _, _, _, _; split;
    [ unfold plot_all_charts; rewrite <-(app_nil_r h) at 1; repeat chart_step;
      rewrite Hmin; repeat chart_step; try (rewrite Hfm; repeat chart_step);
      try rewrite save_and_release_eq; rewrite <-!app_assoc; reflexivity
    | split; [lia|] ].
  - split.
    + rewrite !saved_files_app, !saved_files_barh. reflexivity.
    + exists values. split; [done|].
      rewrite !plotted_lines_app, !plotted_lines_barh. reflexivity.
  - split.
    + rewrite !saved_files_app, !saved_files_barh. reflexivity.
    + rewrite !plotted_lines_app, !plotted_lines_barh. reflexivity.
  - split.
    + rewrite !saved_files_app, !saved_files_barh. reflexivity.
    + rewrite !plotted_lines_app, !plotted_lines_barh. reflexivity.
Qed.
End Plot.

(** ** The loader and the entry point *)

Section Cleaning.
Context {F : Type} `{!FloatOps F} (W : World F).
Implicit Types (d df : DataFrame F).

Lemma records_reset_index df : records (reset_index df) = records df.
Proof.
  unfold reset_index, records at 1. cbn. apply snd_zip.
  rewrite length_seq, len_records. done.
Qed.

Lemma index_reset_index df : index (reset_index df) = seq 0 (len df).
Proof.
  unfold reset_index, index. cbn. apply fst_zip.
  rewrite length_seq, len_records. done.
Qed.

Lemma len_reset_index df : len (reset_index df) = len df.
Proof. by rewrite <-!len_records, records_reset_index. Qed.

Lemma records_select_eq c v df :
  records (select_eq c v df) = filter (λ r, cell c r = Some v) (records df).
Proof.
  unfold records, select_eq. cbn [frame_rows].
  apply (fmap_filter snd (λ r, cell c r = Some v)).
Qed.

Lemma records_dropna df : records (dropna df) = filter (λ r, notna r) (records df).
Proof.
  unfold records, dropna. cbn [frame_rows].
  apply (fmap_filter snd (λ r : Row F, notna r)).
Qed.

Lemma records_cleaned_frame d r :
  r ∈ records (cleaned_frame d) ↔
    r ∈ records d ∧ notna r ∧ State r = Some (lit "WA").
Proof.
  unfold cleaned_frame.
  rewrite records_reset_index, records_select_eq, list_elem_of_filter.
  rewrite records_reset_index, records_dropna, list_elem_of_filter.
  cbn. tauto.
Qed.

Lemma cleaned_frame_cleaned d : cleaned (cleaned_frame d).
Proof.
  unfold cleaned. apply Forall_forall. intros r Hr%records_cleaned_frame. tauto.
Qed.

Lemma categorical_cleaned_frame d : categorical d → categorical (cleaned_frame d).
Proof.
  intros Hcat c. destruct (Hcat c) as [Hnd Hin]. split; [done|].
  intros r k Hr%records_cleaned_frame. apply Hin. tauto.
Qed.

Lemma years_cleaned_frame d y : y ∈ years (cleaned_frame d) → y ∈ years d.
Proof.
  unfold years. rewrite !list_elem_of_fmap.
  intros (r & -> & Hr%records_cleaned_frame). exists r. tauto.
Qed.

Lemma load_data_fail file_path e h n tr :
  read_csv W file_path usecols = inl e →
  load_data W file_path (mkState h n tr) =
    if is_Exception e
    then (Ret None, mkState h (S n) (tr ++ [LogError (ErrorLoading e)]))
    else (Raise e, mkState h n tr).
Proof.
  intros Hread. unfold load_data, try_except. rewrite Hread. cbn [lift].
  erewrite bind_raise_eq by reflexivity.
  destruct (is_Exception e); [|done]. by step.
Qed.

Lemma load_data_run file_path d h n tr :
  read_csv W file_path usecols = inr d →
  ∃ n' evs,
    load_data W file_path (mkState h n tr) =
      (Ret (Some (length h + 2)%nat),
       mkState (h ++ [OFrame d; OFrame (reset_index (dropna d));
                      OFrame (cleaned_frame d)])
               n' (tr ++ evs)) ∧
    saved_files evs = [].
Proof.
  intros Hread. unfold load_data, try_except. rewrite Hread.
  eexists _, _. split.
  - rewrite <-(app_nil_r h) at 1. cbn [lift].
    repeat step. unfold mret, M_ret. rewrite <-!app_assoc. reflexivity.
  - reflexivity.
Qed.

(** C2.  When [load_data] returns a table, no row of it has a missing
    value in a tracked column (the model year, a 16-bit integer, cannot be
    missing), every row's State is 'WA', and the row labels are
    0, 1, 2, ... *)
Theorem load_data_cleans file_path s l s' :
  load_data W file_path s = (Ret (Some l), s') →
  ∃ df, heap s' !! l = Some (OFrame df) ∧
    (∀ r, r ∈ records df →
       is_Some (State r) ∧ is_Some (Make r) ∧ is_Some (Model r) ∧
       is_Some (County r) ∧ is_Some (City r) ∧
       is_Some (Electric_Vehicle_Type r) ∧ is_Some (Electric_Range r) ∧
       State r = Some (lit "WA")) ∧
    index df = seq 0 (len df).
Proof.
  destruct s as [h n tr]. intros Hload.
  destruct (read_csv W file_path usecols) as [e|d] eqn:Hread.
  - rewrite (load_data_fail _ e) in Hload by done. by destruct (is_Exception e).
  - destruct (load_data_run file_path d h n tr Hread) as (n' & evs & Hrun & _).
    rewrite Hrun in Hload. injection Hload as <- <-.
    exists (cleaned_frame d). split_and!.
    + cbn [heap]. by rewrite lookup_new.
    + intros r (_ & Hna & Hwa)%records_cleaned_frame.
      unfold notna in Hna. rewrite !andb_True, !bool_decide_spec in Hna. tauto.
    + unfold cleaned_frame. by rewrite index_reset_index, len_reset_index.
Qed.

(** C4.  When reading the file fails with an exception, [load_data]
    catches it, logs the error and returns None; [main] then returns
    normally, and the whole run has made the output folder and logged the
    error and nothing else: no table, no fit, no chart. *)
Theorem load_failure_short_circuits e s :
  let file_path := path_join W (input_folder W) (lit "ev_data.csv") in
  read_csv W file_path usecols = inl e → is_Exception e →
  load_data W file_path s =
    (Ret None, mkState (heap s) (S (ticks s))
                 (trace s ++ [LogError (ErrorLoading e)])) ∧
  (path_exists W (input_folder W) →
   main W s =
     (Ret (), mkState (heap s) (S (S (ticks s)))
                (trace s ++ [Makedirs (output_folder W); LogError (ErrorLoading e)]))).
Proof.
  intros file_path Hread He. destruct s as [h n tr]. cbn [heap ticks trace].
  apply Is_true_true in He. split.
  - by rewrite (load_data_fail _ e), He.
  - intros Hex%Is_true_true. unfold main. rewrite Hex. cbn [negb].
    step. fold file_path.
    erewrite bind_ret_eq by (by rewrite (load_data_fail _ e), He).
    by rewrite <-app_assoc.
Qed.
End Cleaning.

(** ** The forecaster's claims *)

Section Claims.
Context {F : Type} `{!FloatOps F} (W : World F).
Implicit Types (d : DataFrame F) (s : state F) (l : nat).
Local Arguments wrap : simpl never.

Lemma forecast_run_state l d s :
  heap s !! l = Some (OFrame d) →
  let filtered := index_le 2023 (ev_adoption_by_year d) in
  let year_min := index_min filtered.*1 in
  let x_data := index_sub filtered.*1 year_min in
  let forecast_years := array_sub (arange 2024 (2029 + 1)) year_min in
  let st := mkState (heap s) (S (ticks s)) (trace s ++ [CurveFit x_data filtered.*2]) in
  forecast_future_registrations W l s =
    match curve_fit W exp_growth x_data filtered.*2 with
    | inl e => (Raise e, st)
    | inr p =>
        (Ret (dict_zip (dict_keys (array_add forecast_years year_min))
                ((λ x, exp_growth (to_float x) p.1 p.2) <$> forecast_years)), st)
    end.
Proof.
  destruct s as [h n tr]. cbn [heap ticks trace]. intros Hl.
  pose proof (forecast_run W l d h [] n tr Hl) as Hrun.
  by rewrite app_nil_r in Hrun.
Qed.

Lemma short_sample d :
  (∀ y1 y2, y1 ∈ years d → y2 ∈ years d → y1 <= 2023 → y2 <= 2023 → y1 = y2) →
  (length (index_le 2023 (ev_adoption_by_year d)).*2 < 2)%nat.
Proof.
  intros Hone. rewrite length_fmap, <-(length_fmap fst).
  apply length_le_1; [apply NoDup_filtered_keys|].
  intros y1 y2 [? ?]%elem_of_filtered_keys [? ?]%elem_of_filtered_keys. auto.
Qed.

(** C1.  When the forecast succeeds, its map has exactly six entries, for
    the years 2024 to 2029 whatever the last year of the data, and the
    entry of a year is [a * exp(b * (year - year_min))], for the fitted
    [(a, b)] and [year_min] the earliest model year of the table that is
    at most 2023. *)
Theorem forecast_map_years l d s m s' :
  needs_two_points W →
  heap s !! l = Some (OFrame d) →
  Forall int16 (years d) →
  forecast_future_registrations W l s = (Ret m, s') →
  let sample := index_le 2023 (ev_adoption_by_year d) in
  ∃ year_min a b,
    (year_min ∈ years d ∧ year_min <= 2023 ∧
     ∀ y, y ∈ years d → y <= 2023 → year_min <= y) ∧
    curve_fit W exp_growth (index_sub sample.*1 (Some year_min)) sample.*2
      = inr (a, b) ∧
    size m = 6%nat ∧
    dom m = list_to_set (inl <$> [2024; 2025; 2026; 2027; 2028; 2029]) ∧
    ∀ y, 2024 <= y <= 2029 →
         m !! inl y = Some (fmul a (fexp (fmul b (F_of_Z (y - year_min))))).
Proof.
  intros Hfit Hl Hint Hrun sample.
  rewrite (forecast_run_state l d s Hl) in Hrun. fold sample in Hrun.
  destruct (index_min sample.*1) as [year_min|] eqn:Hmin.
  - destruct (curve_fit W exp_growth _ _) as [e|[a b]] eqn:Hcf; [done|].
    apply (f_equal fst) in Hrun. cbn [fst snd] in Hrun.
    assert (∀ x : gmap (Z + nat) F, Ret x = Ret m → x = m) as Hinj by congruence.
    apply Hinj in Hrun as <-. clear Hinj.
    destruct (index_min_spec _ _ Hmin) as [Hin Hle].
    apply elem_of_filtered_keys in Hin as [Hin Hc].
    assert (int16 year_min) as H16 by (rewrite Forall_forall in Hint; auto).
    exists year_min, a, b. split_and!; try done.
    + intros y Hy Hyc. apply Hle, elem_of_filtered_keys. done.
    + rewrite forecast_keys, forecast_values by done. apply forecast_dict.
    + rewrite forecast_keys, forecast_values by done. apply forecast_dict.
    + rewrite forecast_keys, forecast_values by done.
      apply (forecast_dict (λ y, exp_growth (F_of_Z (y - year_min)) a b)).
  - apply index_min_None in Hmin.
    destruct (Hfit exp_growth (index_sub sample.*1 None) sample.*2) as [e He].
    { rewrite length_fmap, <-(length_fmap fst), Hmin. cbn. lia. }
    by rewrite He in Hrun.
Qed.

Lemma forecast_raises l d s :
  needs_two_points W →
  heap s !! l = Some (OFrame d) →
  (∀ y1 y2, y1 ∈ years d → y2 ∈ years d → y1 <= 2023 → y2 <= 2023 → y1 = y2) →
  ∃ e s',
    forecast_future_registrations W l s = (Raise e, s') ∧
    saved_files (trace s') = saved_files (trace s) ∧
    ∀ (k : gmap (Z + nat) F → M F ()),
      (forecast_future_registrations W l ≫= k) s = (Raise e, s').
Proof.
  intros Hfit Hl Hone.
  set (sample := index_le 2023 (ev_adoption_by_year d)).
  destruct (Hfit exp_growth (index_sub sample.*1 (index_min sample.*1)) sample.*2)
    as [e He]; [by apply short_sample|].
  pose proof (forecast_run_state l d s Hl) as Hrun. cbn zeta in Hrun.
  fold sample in Hrun. rewrite He in Hrun.
  eexists e, _. split_and!; [exact Hrun| |].
  - cbn [trace]. rewrite saved_files_app. cbn. by rewrite app_nil_r.
  - intros k. by apply bind_raise_eq.
Qed.

Lemma main_raises d0 s :
  needs_two_points W →
  path_exists W (input_folder W) →
  read_csv W (path_join W (input_folder W) (lit "ev_data.csv")) usecols = inr d0 →
  (∀ y1 y2, y1 ∈ years (cleaned_frame d0) → y2 ∈ years (cleaned_frame d0) →
            y1 <= 2023 → y2 <= 2023 → y1 = y2) →
  ∃ e s', main W s = (Raise e, s') ∧ saved_files (trace s') = saved_files (trace s).
Proof.
  intros Hfit Hex%Is_true_true Hread Hone. destruct s as [h n tr].
  unfold main. rewrite Hex. cbn [negb]. step.
  destruct (load_data_run W _ d0 h (S n) (tr ++ [Makedirs (output_folder W)]) Hread)
    as (n1 & evs1 & Hload & Hsaved1).
  erewrite bind_ret_eq by exact Hload. cbv iota.
  lazymatch goal with
  | |- context [ (forecast_future_registrations W ?l ≫= _) ?st ] =>
      destruct (forecast_raises l (cleaned_frame d0) st) as (e & s' & _ & Hs & Hk);
        [done|cbn [heap]; by rewrite lookup_new|done|]
  end.
  rewrite Hk. exists e, s'. split; [done|].
  rewrite Hs. cbn [trace]. rewrite !saved_files_app, Hsaved1. cbn.
  by rewrite !app_nil_r.
Qed.

(** C3.  When the table has fewer than two distinct model years at or
    before 2023, and SciPy rejects a fit of two parameters to fewer than
    two points, the forecast raises: no map is returned and whatever
    follows the forecast is not run.  A run that loads such a table ends
    with that exception, and writes no chart. *)
Theorem forecast_fails_on_short_sample l d s :
  needs_two_points W →
  heap s !! l = Some (OFrame d) →
  (∀ y1 y2, y1 ∈ years d → y2 ∈ years d → y1 <= 2023 → y2 <= 2023 → y1 = y2) →
  (∃ e s',
    forecast_future_registrations W l s = (Raise e, s') ∧
    saved_files (trace s') = saved_files (trace s) ∧
    ∀ (k : gmap (Z + nat) F → M F ()),
      (forecast_future_registrations W l ≫= k) s = (Raise e, s')) ∧
  (∀ d0 s0,
    path_exists W (input_folder W) →
    read_csv W (path_join W (input_folder W) (lit "ev_data.csv")) usecols = inr d0 →
    cleaned_frame d0 = d →
    ∃ e s', main W s0 = (Raise e, s') ∧
            saved_files (trace s') = saved_files (trace s0)).
Proof.
  intros Hfit Hl Hone. split.
  - by apply (forecast_raises l d).
  - intros d0 s0 Hex Hread <-. by apply (main_raises d0).
Qed.
End Claims.

(** ** The fitting sample, the frame and the file names *)

Section Claims2.
Context {F : Type} `{!FloatOps F} (W : World F).
Implicit Types (d : DataFrame F) (s : state F) (l : nat).
Local Arguments wrap : simpl never.

Lemma plot_run_state l d fm p s :
  heap s !! l = Some (OFrame d) →
  let ts := strftime (wall_clock W (ticks s)) in
  let filtered := index_le 2023 (ev_adoption_by_year d) in
  let avg := mean_range_by_year d in
  ∃ r objs n' evs,
    plot_all_charts W l fm p s = (r, mkState (heap s ++ objs) n' (trace s ++ evs)) ∧
    (ticks s < n')%nat ∧
    match r with
    | Ret _ =>
        saved_files evs = (λ slug, chart_filename p slug ts) <$> chart_slugs ∧
        ∃ values, mapM (λ y, fm !! inl y) (arange 2024 (2029 + 1)) = Some values ∧
          plotted_lines evs =
            [(avg.*1, Float <$> avg.*2, None);
             (filtered.*1, Count <$> filtered.*2, Some (lit "Actual Registrations"));
             (arange 2024 (2029 + 1), Float <$> values,
              Some (lit "Forecasted Registrations"))]
    | Raise e =>
        saved_files evs = (λ slug, chart_filename p slug ts) <$> take 7 chart_slugs ∧
        plotted_lines evs = [(avg.*1, Float <$> avg.*2, None)]
    end.
Proof. destruct s as [h n tr]. apply plot_run. Qed.

Lemma exact_offsets (keys : list Z) m :
  -30744 <= m → (∀ y, y ∈ keys → m <= y <= 2023) →
  index_sub keys (Some m) = (λ y, y - m) <$> keys.
Proof.
  intros Hm Hkeys. unfold index_sub. apply list_fmap_ext.
  intros i y Hy. apply wrap_small; [lia|].
  specialize (Hkeys y (list_elem_of_lookup_2 _ _ _ Hy)).
  change (2 ^ (16 - 1)) with 32768. lia.
Qed.

(** C6.  The fitting sample is the yearly counts of the years at or
    before 2023 and nothing else: rows of a later year change neither the
    sample nor what is passed to the fit.  The offsets passed are the
    16-bit differences to the earliest year of the sample (the plain
    differences unless that year is below -30744).  The "actual" line of
    the forecast chart is the same sample. *)
Theorem fit_sample_up_to_cutoff l d s :
  heap s !! l = Some (OFrame d) →
  let sample := index_le 2023 (ev_adoption_by_year d) in
  (∀ y n, (y, n) ∈ sample ↔
            y ∈ years d ∧ y <= 2023 ∧ n = occurrences y (years d)) ∧
  sample = ev_adoption_by_year (up_to_year 2023 d) ∧
  (∃ r s',
     forecast_future_registrations W l s = (r, s') ∧
     trace s' =
       trace s ++ [CurveFit (index_sub sample.*1 (index_min sample.*1)) sample.*2] ∧
     ∀ m, r = Ret m →
          ∃ p, curve_fit W exp_growth
                 (index_sub sample.*1 (index_min sample.*1)) sample.*2 = inr p) ∧
  (∀ m, index_min sample.*1 = Some m →
     (m ∈ years d ∧ m <= 2023 ∧ ∀ y, y ∈ years d → y <= 2023 → m <= y) ∧
     index_sub sample.*1 (Some m) = (λ y, wrap 16 (y - m)) <$> sample.*1 ∧
     (-30744 <= m → index_sub sample.*1 (Some m) = (λ y, y - m) <$> sample.*1)) ∧
  (∀ fm p s',
     plot_all_charts W l fm p s = (Ret (), s') →
     ∃ evs values avg,
       trace s' = trace s ++ evs ∧
       plotted_lines evs =
         [avg;
          (sample.*1, Count <$> sample.*2, Some (lit "Actual Registrations"));
          (arange 2024 (2029 + 1), Float <$> values,
           Some (lit "Forecasted Registrations"))]).
Proof.
  intros Hl sample. split_and!.
  - intros y n. apply (elem_of_filtered 2023 d (y, n)).
  - apply filtered_up_to.
  - pose proof (forecast_run_state W l d s Hl) as Hrun. cbn zeta in Hrun.
    fold sample in Hrun.
    destruct (curve_fit W exp_growth _ _) as [e|p] eqn:Hcf.
    + eexists _, _. split_and!; [exact Hrun|done|done].
    + eexists _, _. split_and!; [exact Hrun|done|]. intros _ _. by exists p.
  - intros m Hmin. destruct (index_min_spec _ _ Hmin) as [Hin Hle].
    apply elem_of_filtered_keys in Hin as [Hin Hc]. split_and!; try done.
    + intros y Hy Hyc. apply Hle, elem_of_filtered_keys. done.
    + intros Hm. apply exact_offsets; [done|].
      intros y Hy. split; [by apply Hle|].
      by apply elem_of_filtered_keys in Hy as [_ ?].
  - intros fm p s' Hplot.
    destruct (plot_run_state l d fm p s Hl) as (r & objs & n' & evs & Hrun & _ & Hr).
    rewrite Hrun in Hplot. injection Hplot as -> <-.
    destruct Hr as (_ & values & _ & Hlines).
    by eexists evs, values, _.
Qed.

(** C9.  The forecast and the renderer leave the registration table as it
    was: the forecast allocates and changes nothing, and the renderer only
    adds objects; every object that existed before, the table among them,
    is the same afterwards, whether the call returns or raises.  The label
    shortening writes to tables made by the renderer itself. *)
Theorem table_not_mutated l d s :
  heap s !! l = Some (OFrame d) →
  (∀ r s', forecast_future_registrations W l s = (r, s') → heap s' = heap s) ∧
  (∀ fm p r s',
     plot_all_charts W l fm p s = (r, s') →
     heap s' !! l = Some (OFrame d) ∧ ∃ objs, heap s' = heap s ++ objs) ∧
  (∀ r1 s1 fm p r2 s2,
     forecast_future_registrations W l s = (r1, s1) →
     plot_all_charts W l fm p s1 = (r2, s2) →
     heap s2 !! l = Some (OFrame d) ∧ ∃ objs, heap s2 = heap s ++ objs).
Proof.
  intros Hl.
  assert (∀ r s', forecast_future_registrations W l s = (r, s') → heap s' = heap s)
    as Hforecast.
  { intros r s' Hrun. rewrite (forecast_run_state W l d s Hl) in Hrun.
    destruct (curve_fit W exp_growth _ _); by injection Hrun as _ <-. }
  assert (∀ s fm p r s', heap s !! l = Some (OFrame d) →
            plot_all_charts W l fm p s = (r, s') →
            heap s' !! l = Some (OFrame d) ∧ ∃ objs, heap s' = heap s ++ objs)
    as Hplot.
  { intros s0 fm p r s' Hl0 Hrun.
    destruct (plot_run_state l d fm p s0 Hl0) as (r' & objs & n' & evs & Hrun' & _).
    rewrite Hrun' in Hrun. injection Hrun as _ <-. cbn [heap]. split.
    - by apply lookup_app_l_Some.
    - by exists objs. }
  split_and!; [done|by intros fm p r s'; apply Hplot|].
  intros r1 s1 fm p r2 s2 Hrun1 Hrun2.
  rewrite <-(Hforecast _ _ Hrun1) in *. by apply (Hplot s1 fm p r2).
Qed.

(** C10.  The timestamp is read once, when rendering starts: every file
    written by one call of the renderer is named prefix, slug, that
    timestamp, however the clock moves while the charts are drawn.  A call
    that returns has written the eight files, in the order of the slugs. *)
Theorem filenames_share_timestamp l d fm p s r s' :
  heap s !! l = Some (OFrame d) →
  plot_all_charts W l fm p s = (r, s') →
  let timestamp := strftime (wall_clock W (ticks s)) in
  (ticks s < ticks s')%nat ∧
  ∃ evs k,
    trace s' = trace s ++ evs ∧
    saved_files evs = (λ slug, chart_filename p slug timestamp) <$> take k chart_slugs ∧
    (r = Ret () → k = 8%nat).
Proof.
  intros Hl Hrun timestamp.
  destruct (plot_run_state l d fm p s Hl) as (r' & objs & n' & evs & Hrun' & Hn & Hr).
  rewrite Hrun' in Hrun. injection Hrun as -> <-. cbn [ticks trace]. split; [done|].
  destruct r as [[]|e].
  - exists evs, 8%nat. by destruct Hr as [-> _].
  - exists evs, 7%nat. by destruct Hr as [-> _].
Qed.
End Claims2.

(** ** The claims at the sample run *)

Ltac by_compute := apply (bool_decide_unpack _); vm_compute; exact I.

Lemma sample_needs_two_points csv : needs_two_points (sample_world csv).
Proof.
  intros f xs [|y [|y' ys]] Hlen; cbn in *; [by exists TypeError..|lia].
Qed.

Lemma sample_int16 : Forall int16 (years sample_table).
Proof. unfold int16. by_compute. Qed.

Lemma sample_categorical : categorical sample_table.
Proof.
  intros c. split.
  - destruct c; by_compute.
  - intros r k Hr Hk. destruct c.
    all: vm_compute in Hr.
    all: repeat (apply elem_of_cons in Hr as [->|Hr];
                   [vm_compute in Hk; injection Hk as <-; by_compute|]).
    all: by apply elem_of_nil in Hr.
Qed.

Lemma sample_cleaned : cleaned sample_table.
Proof. unfold cleaned. by_compute. Qed.

Lemma forecast_map_years_witness :
  ∃ m s',
    forecast_future_registrations (sample_world (inr sample_csv)) 0%nat sample_state
      = (Ret m, s') ∧
    size m = 6%nat ∧
    m !! inl 2026 = Some (fmul 1 (fexp (fmul 1 (F_of_Z (2026 - 2020))))).
Proof.
  eexists _, _. split; [vm_compute; reflexivity|].
  destruct (forecast_map_years (sample_world (inr sample_csv)) 0%nat sample_table sample_state _ _
              (sample_needs_two_points _) eq_refl sample_int16 eq_refl)
    as (year_min & a & b & _ & _ & Hsize & _ & _).
  split; [exact Hsize|]. vm_compute. reflexivity.
Defined.

Lemma short_one_year y1 y2 :
  y1 ∈ years short_table → y2 ∈ years short_table → y1 <= 2023 → y2 <= 2023 → y1 = y2.
Proof.
  intros H1%list_elem_of_In H2%list_elem_of_In. vm_compute in H1, H2. lia.
Qed.

Lemma load_data_cleans_witness :
  ∃ s' df,
    load_data (sample_world (inr sample_csv)) (lit "input/ev_data.csv") empty_state
      = (Ret (Some 2%nat), s') ∧
    heap s' !! 2%nat = Some (OFrame df) ∧
    index df = seq 0 (len df).
Proof.
  destruct (load_data (sample_world (inr sample_csv)) (lit "input/ev_data.csv") empty_state)
    as [r s'] eqn:Hrun.
  assert (r = Ret (Some 2%nat)) as -> by (apply (f_equal fst) in Hrun; vm_compute in Hrun; congruence).
  destruct (load_data_cleans _ _ _ _ _ Hrun) as (df & Hl & _ & Hidx).
  by exists s', df.
Defined.

Lemma forecast_fails_on_short_sample_witness :
  ∃ e s',
    forecast_future_registrations (sample_world (inr short_csv)) 0%nat short_state
      = (Raise e, s').
Proof.
  destruct (forecast_fails_on_short_sample (sample_world (inr short_csv)) 0%nat
              short_table short_state (sample_needs_two_points _) eq_refl short_one_year)
    as [(e & s' & Hrun & _) _].
  by exists e, s'.
Defined.

Lemma load_failure_short_circuits_witness :
  main (sample_world (inl FileNotFoundError)) empty_state =
    (Ret (), mkState [] 2 [Makedirs (lit "output");
                           LogError (ErrorLoading FileNotFoundError)]).
Proof.
  exact (proj2 (load_failure_short_circuits (sample_world (inl FileNotFoundError))
                  FileNotFoundError empty_state eq_refl I) I).
Defined.

Lemma count_aggregations_partition_witness :
  sum_list (ev_adoption_by_year sample_table).*2 = 7%nat ∧
  sum_list (ev_county_distribution sample_table).*2 = 7%nat ∧
  sum_list (ev_type_distribution sample_table).*2 = 7%nat.
Proof.
  exact (count_aggregations_partition sample_table sample_categorical sample_cleaned).
Defined.

Lemma fit_sample_up_to_cutoff_witness :
  index_le 2023 (ev_adoption_by_year sample_table) = [(2020, 1%nat); (2021, 2%nat); (2022, 1%nat); (2023, 2%nat)] ∧
  ev_adoption_by_year (up_to_year 2023 sample_table) = [(2020, 1%nat); (2021, 2%nat); (2022, 1%nat); (2023, 2%nat)].
Proof.
  destruct (fit_sample_up_to_cutoff (sample_world (inr sample_csv)) 0%nat sample_table
              sample_state eq_refl) as (_ & <- & _).
  split; vm_compute; reflexivity.
Defined.

Lemma shorten_spec_witness :
  shorten (lit "Bainbridge Island") = lit "Bainbridge I..." ∧
  shorten (lit "Port Orchard") = lit "Port Orchard".
Proof.
  split.
  - apply (proj1 (shorten_spec (lit "Bainbridge Island"))). cbn. lia.
  - apply (proj2 (shorten_spec (lit "Port Orchard"))). cbn. lia.
Defined.

Lemma table_not_mutated_witness :
  ∃ s',
    plot_all_charts (sample_world (inr sample_csv)) 0%nat sample_forecast
      (lit "output/ev_data") sample_state = (Ret (), s') ∧
    length (heap s') = 8%nat ∧
    heap s' !! 0%nat = Some (OFrame sample_table).
Proof.
  destruct (plot_all_charts (sample_world (inr sample_csv)) 0%nat sample_forecast
              (lit "output/ev_data") sample_state) as [r s'] eqn:Hrun.
  assert (r = Ret () ∧ length (heap s') = 8%nat) as [-> Hlen].
  { split; [apply (f_equal fst) in Hrun|apply (f_equal snd) in Hrun];
      vm_compute in Hrun; [congruence|]. subst s'. vm_compute. reflexivity. }
  destruct (table_not_mutated (sample_world (inr sample_csv)) 0%nat sample_table
              sample_state eq_refl) as (_ & Hplot & _).
  destruct (Hplot _ _ _ _ Hrun) as [Hl _].
  exists s'. split; [reflexivity|]. split; [exact Hlen|exact Hl].
Defined.

Lemma filenames_share_timestamp_witness :
  ∃ s',
    plot_all_charts (sample_world (inr sample_csv)) 0%nat sample_forecast
      (lit "output/ev_data") sample_state = (Ret (), s') ∧
    saved_files (trace s') =
      (λ slug, lit "output/ev_data_" ++ slug ++ lit "_20250309_235900.png") <$> chart_slugs ∧
    sample_clock (ticks s') ≠ sample_clock 0.
Proof.
  destruct (plot_all_charts (sample_world (inr sample_csv)) 0%nat sample_forecast
              (lit "output/ev_data") sample_state) as [r s'] eqn:Hrun.
  assert (r = Ret () ∧ sample_clock (ticks s') ≠ sample_clock 0) as [-> Hclock].
  { split; [apply (f_equal fst) in Hrun|apply (f_equal snd) in Hrun];
      vm_compute in Hrun; [congruence|]. subst s'. vm_compute. discriminate. }
  destruct (filenames_share_timestamp (sample_world (inr sample_csv)) 0%nat sample_table
              sample_forecast (lit "output/ev_data") sample_state _ _ eq_refl Hrun)
    as (_ & evs & k & Htrace & Hsaved & Hk).
  exists s'. split; [reflexivity|]. split; [|exact Hclock].
  rewrite Htrace. change (trace sample_state) with (@nil (event Z)). cbn [app].
  rewrite Hsaved, (Hk eq_refl). vm_compute. reflexivity.
Defined.

(** ** The sample run, observed *)

(** In the sample run the city labels of the second chart are shortened,
    while the vehicle-type labels of the third chart, horizontal bars too,
    are drawn as they are: the script shortens the city and model columns of
    its three grouped tables and no other label. *)
Example sample_city_labels :
  trace (plot_all_charts (sample_world (inr sample_csv)) 0%nat sample_forecast
           (lit "output/ev_data") sample_state).2 !! 8%nat =
    Some (Barh [lit "Bainbridge I..."] [Count 1%nat] (Some (lit "Kitsap"))).
Proof. vm_compute. reflexivity. Qed.

Example sample_type_labels :
  trace (plot_all_charts (sample_world (inr sample_csv)) 0%nat sample_forecast
           (lit "output/ev_data") sample_state).2 !! 15%nat =
    Some (Barh [lit bev; lit phev] [Count 6%nat; Count 1%nat] None).
Proof. vm_compute. reflexivity. Qed.

(** An assignment to a column of the registration table itself would be seen
    by every later reader of the table: the store keeps one object per
    reference.  The renderer makes no such assignment. *)
Example setitem_replaces_the_column :
  ∃ s' df,
    setitem 0%nat cCity (replicate 7 (lit "Olympia")) sample_state = (Ret (), s') ∧
    heap s' !! 0%nat = Some (OFrame df) ∧
    column cCity df = replicate 7 (Some (lit "Olympia")).
Proof. eexists _, _. split_and!; vm_compute; reflexivity. Qed.

(** The six forecast years of the sample, with the sample solver's answer
    [(1, 1)] and the earliest year 2020. *)
Example sample_forecast_2029 :
  ∃ m s',
    forecast_future_registrations (sample_world (inr sample_csv)) 0%nat sample_state
      = (Ret m, s') ∧
    m !! inl 2029 = Some (1 * 2 ^ (1 * (2029 - 2020))) ∧
    trace s' = [CurveFit [0; 1; 2; 3] [1; 2; 1; 2]%nat].
Proof. eexists _, _. split_and!; vm_compute; reflexivity. Qed.

(** ** More about the loader, the renderer and the entry point *)

Section Outcome.
Context {F : Type} `{!FloatOps F} (W : World F).
Implicit Types (d : DataFrame F) (s : state F) (l : nat).

(** Which way a call of the renderer ends. *)
Lemma plot_outcome l d fm p s :
  heap s !! l = Some (OFrame d) →
  (plot_all_charts W l fm p s).1 =
    match index_min (index_le 2023 (ev_adoption_by_year d)).*1 with
    | None => Raise ValueError
    | Some _ =>
        match mapM (λ y, fm !! inl y) (arange 2024 (2029 + 1)) with
        | None => Raise KeyError
        | Some _ => Ret ()
        end
    end.
Proof.
  destruct s as [h n tr]. cbn [heap]. intros Hl.
  destruct (index_min _) as [m|] eqn:Hmin;
    [destruct (mapM _ _) as [values|] eqn:Hfm|].
  all: unfold ev_adoption_by_year in *.
  all: unfold plot_all_charts; rewrite <-(app_nil_r h) at 1; repeat chart_step;
       rewrite Hmin; repeat chart_step; try (rewrite Hfm; repeat chart_step);
       try rewrite save_and_release_eq; reflexivity.
Qed.
End Outcome.

Section Loader.
Context {F : Type} `{!FloatOps F} (W : World F).
Implicit Types (d df : DataFrame F) (s : state F) (l : nat).

Lemma filter_all {A} (P : A → Prop) `{∀ x, Decision (P x)} (xs : list A) :
  Forall P xs → filter P xs = xs.
Proof.
  induction 1 as [|x xs Hx _ IH]; [done|]. by rewrite filter_cons_True, IH.
Qed.

Lemma reset_index_twice df : reset_index (reset_index df) = reset_index df.
Proof.
  unfold reset_index at 1. rewrite len_reset_index, records_reset_index. done.
Qed.

Lemma dropna_complete df : Forall (λ r, notna r) (records df) → dropna df = df.
Proof.
  intros Hall. destruct df as [rows cats]. unfold dropna, records in *. cbn in *.
  f_equal. apply filter_all, Forall_forall. intros p Hp.
  rewrite Forall_forall in Hall. apply (Hall p.2), list_elem_of_fmap. eauto.
Qed.

Lemma select_eq_all c v df :
  Forall (λ r, cell c r = Some v) (records df) → select_eq c v df = df.
Proof.
  intros Hall. destruct df as [rows cats]. unfold select_eq, records in *. cbn in *.
  f_equal. apply filter_all, Forall_forall. intros p Hp.
  rewrite Forall_forall in Hall. apply (Hall p.2), list_elem_of_fmap. eauto.
Qed.

(** X1.  cleaning a table that is already clean changes nothing but the row
    labels, and cleaning twice is cleaning once. *)
Theorem cleaning_is_idempotent d :
  cleaned_frame (cleaned_frame d) = cleaned_frame d ∧
  ∀ df, cleaned df → cleaned_frame df = reset_index df.
Proof.
  assert (∀ df, cleaned df → cleaned_frame df = reset_index df) as Hclean.
  { intros df Hdf. unfold cleaned_frame. unfold cleaned in Hdf.
    rewrite dropna_complete by (eapply Forall_impl; [exact Hdf|]; by intros r [? ?]).
    rewrite select_eq_all; [apply reset_index_twice|].
    rewrite records_reset_index. eapply Forall_impl; [exact Hdf|]. by intros r [? ?]. }
  split; [|exact Hclean].
  rewrite Hclean by apply cleaned_frame_cleaned.
  unfold cleaned_frame at 1 2. apply reset_index_twice.
Qed.

Lemma records_cleaned_frame_eq d :
  records (cleaned_frame d) =
    filter (λ r, State r = Some (lit "WA") ∧ notna r) (records d).
Proof.
  unfold cleaned_frame.
  rewrite records_reset_index, records_select_eq, records_reset_index, records_dropna.
  apply list_filter_filter.
Qed.

(** X2.  the table [load_data] returns holds exactly the rows of the file
    that are complete and of state 'WA', in the order of the file; the
    categories of the columns are those of the whole file; objects that
    existed before the call are untouched. *)
Theorem load_data_keeps_complete_rows file_path s l s' :
  load_data W file_path s = (Ret (Some l), s') →
  ∃ d df,
    read_csv W file_path usecols = inr d ∧
    heap s' !! l = Some (OFrame df) ∧
    records df = filter (λ r, State r = Some (lit "WA") ∧ notna r) (records d) ∧
    frame_cats df = frame_cats d ∧
    (len df ≤ len d)%nat ∧
    ∃ objs, heap s' = heap s ++ objs.
Proof.
  destruct s as [h n tr]. intros Hload.
  destruct (read_csv W file_path usecols) as [e|d] eqn:Hread.
  - rewrite (load_data_fail _ _ e) in Hload by done. by destruct (is_Exception e).
  - destruct (load_data_run W file_path d h n tr Hread) as (n' & evs & Hrun & _).
    rewrite Hrun in Hload. injection Hload as <- <-.
    exists d, (cleaned_frame d). split_and!; [done| | |done| |by eexists].
    + cbn [heap]. by rewrite lookup_new.
    + apply records_cleaned_frame_eq.
    + rewrite <-!len_records, records_cleaned_frame_eq. apply length_filter.
Qed.

(** X3.  an exception that does not derive from [Exception] (an interrupt)
    raised while the file is read is not caught: [load_data] raises it
    without a log line, and so does [main], after making the output folder. *)
Theorem interrupt_is_not_caught e s :
  let file_path := path_join W (input_folder W) (lit "ev_data.csv") in
  read_csv W file_path usecols = inl e → is_Exception e = false →
  load_data W file_path s = (Raise e, s) ∧
  (path_exists W (input_folder W) →
   main W s = (Raise e, mkState (heap s) (S (ticks s))
                          (trace s ++ [Makedirs (output_folder W)]))).
Proof.
  intros file_path Hread He. destruct s as [h n tr]. split.
  - by rewrite (load_data_fail _ _ e), He.
  - intros Hex%Is_true_true. unfold main. rewrite Hex. cbn [negb]. step.
    fold file_path. erewrite bind_raise_eq; [done|].
    by rewrite (load_data_fail _ _ e), He.
Qed.
End Loader.

Section Renderer.
Context {F : Type} `{!FloatOps F} (W : World F).
Implicit Types (d df : DataFrame F) (s : state F) (l : nat).

(** A call of the renderer: how it ends, what it has written by then. *)
Lemma plot_result l d fm p s :
  heap s !! l = Some (OFrame d) →
  let r := match index_min (index_le 2023 (ev_adoption_by_year d)).*1 with
           | None => Raise ValueError
           | Some _ =>
               match mapM (λ y, fm !! inl y) (arange 2024 (2029 + 1)) with
               | None => Raise KeyError
               | Some _ => Ret ()
               end
           end in
  ∃ s' evs,
    plot_all_charts W l fm p s = (r, s') ∧
    trace s' = trace s ++ evs ∧
    heap s' !! l = Some (OFrame d) ∧
    saved_files evs =
      (λ slug, chart_filename p slug (strftime (wall_clock W (ticks s))))
        <$> take (match r with Ret _ => 8%nat | Raise _ => 7%nat end) chart_slugs.
Proof.
  intros Hl r.
  destruct (plot_run_state W l d fm p s Hl) as (r' & objs & n' & evs & Hrun & _ & Hr).
  pose proof (plot_outcome W l d fm p s Hl) as Hout. fold r in Hout.
  rewrite Hrun in Hout. cbn [fst] in Hout. subst r'.
  eexists _, evs. split_and!; [exact Hrun|done| |].
  - cbn [heap]. by apply lookup_app_l_Some.
  - destruct r as [[]|e]; by destruct Hr as [-> _].
Qed.

Lemma sample_nonempty d y :
  y ∈ years d → y <= 2023 →
  is_Some (index_min (index_le 2023 (ev_adoption_by_year d)).*1).
Proof.
  intros Hy Hc. destruct (index_min _) as [m|] eqn:Hmin; [by eexists|].
  apply index_min_None in Hmin.
  assert (y ∈ (index_le 2023 (ev_adoption_by_year d)).*1) as Hin
    by (by apply elem_of_filtered_keys).
  rewrite Hmin in Hin. by apply elem_of_nil in Hin.
Qed.

(** X4.  when the forecast map lacks one of the years 2024 to 2029, the
    renderer raises [KeyError] at the last chart: the first seven files are
    written by then, the eighth is not, and the table is as it was. *)
Theorem renderer_needs_all_forecast_years l d fm p s y0 y :
  heap s !! l = Some (OFrame d) →
  y0 ∈ years d → y0 <= 2023 →
  2024 <= y <= 2029 → fm !! inl y = None →
  ∃ s' evs,
    plot_all_charts W l fm p s = (Raise KeyError, s') ∧
    trace s' = trace s ++ evs ∧
    heap s' !! l = Some (OFrame d) ∧
    saved_files evs =
      (λ slug, chart_filename p slug (strftime (wall_clock W (ticks s))))
        <$> take 7 chart_slugs.
Proof.
  intros Hl Hy0 Hc Hy Hfm.
  destruct (plot_result l d fm p s Hl) as (s' & evs & Hrun & Htr & Hh & Hsaved).
  destruct (sample_nonempty d y0 Hy0 Hc) as [m Hm]. rewrite Hm in Hrun, Hsaved.
  assert (mapM (λ y, fm !! inl y) (arange 2024 (2029 + 1)) = None) as Hnone.
  { apply mapM_None, Exists_exists. exists y. split; [|done].
    unfold arange. apply elem_of_seqZ. lia. }
  rewrite Hnone in Hrun, Hsaved. by exists s', evs.
Qed.

(** X5.  on a table with no model year at or before 2023, the renderer raises
    [ValueError] at the last chart, with the first seven files written. *)
Theorem renderer_needs_a_year_up_to_cutoff l d fm p s :
  heap s !! l = Some (OFrame d) →
  (∀ y, y ∈ years d → 2023 < y) →
  ∃ s' evs,
    plot_all_charts W l fm p s = (Raise ValueError, s') ∧
    trace s' = trace s ++ evs ∧
    heap s' !! l = Some (OFrame d) ∧
    saved_files evs =
      (λ slug, chart_filename p slug (strftime (wall_clock W (ticks s))))
        <$> take 7 chart_slugs.
Proof.
  intros Hl Hlate.
  destruct (plot_result l d fm p s Hl) as (s' & evs & Hrun & Htr & Hh & Hsaved).
  assert (index_min (index_le 2023 (ev_adoption_by_year d)).*1 = None) as Hnone.
  { apply index_min_None. destruct (_.*1) as [|y ys] eqn:Hk; [done|].
    assert (y ∈ (index_le 2023 (ev_adoption_by_year d)).*1) as Hin
      by (rewrite Hk; left).
    apply elem_of_filtered_keys in Hin as [Hin Hc]. specialize (Hlate y Hin). lia. }
  rewrite Hnone in Hrun, Hsaved. by exists s', evs.
Qed.

Lemma chart_filename_inj p ts slug1 slug2 :
  chart_filename p slug1 ts = chart_filename p slug2 ts → slug1 = slug2.
Proof.
  unfold chart_filename. intros H.
  apply app_inv_head, app_inv_head in H. by apply app_inv_tail in H.
Qed.

Lemma NoDup_chart_slugs : NoDup chart_slugs.
Proof. apply (bool_decide_unpack _). vm_compute. exact I. Qed.

(** X6.  the files written by one call of the renderer have pairwise distinct
    names: no chart of a run overwrites another chart of the same run. *)
Theorem charts_do_not_overwrite l d fm p s r s' :
  heap s !! l = Some (OFrame d) →
  plot_all_charts W l fm p s = (r, s') →
  ∃ evs, trace s' = trace s ++ evs ∧ NoDup (saved_files evs).
Proof.
  intros Hl Hrun.
  destruct (plot_result l d fm p s Hl) as (s1 & evs & Hrun1 & Htr & _ & Hsaved).
  rewrite Hrun1 in Hrun. injection Hrun as _ <-.
  exists evs. split; [done|]. rewrite Hsaved.
  apply NoDup_fmap_2_strong;
    [|eapply sublist_NoDup; [apply NoDup_chart_slugs|apply sublist_take]].
  intros ???? Heq. by apply chart_filename_inj in Heq.
Qed.
End Renderer.

Section EndToEnd.
Context {F : Type} `{!FloatOps F} (W : World F).
Implicit Types (d df : DataFrame F) (s : state F) (l : nat).

(** [main] up to the end of a successful load. *)
Lemma main_loaded d0 s :
  path_exists W (input_folder W) →
  read_csv W (path_join W (input_folder W) (lit "ev_data.csv")) usecols = inr d0 →
  ∃ s1 evs1,
    heap s1 !! (length (heap s) + 2)%nat = Some (OFrame (cleaned_frame d0)) ∧
    trace s1 = trace s ++ evs1 ∧ saved_files evs1 = [] ∧
    head evs1 = Some (Makedirs (output_folder W)) ∧
    main W s =
      (forecasted_evs ← forecast_future_registrations W (length (heap s) + 2)%nat;
       emit (Print (Text (nl ++ lit "Forecasted EV Registrations (2024-2029):")));;
       emit (Print (Forecast forecasted_evs));;
       plot_all_charts W (length (heap s) + 2)%nat forecasted_evs
         (path_join W (output_folder W) (lit "ev_data"))) s1.
Proof.
  intros Hex%Is_true_true Hread. destruct s as [h n tr]. cbn [heap trace].
  destruct (load_data_run W _ d0 h (S n) (tr ++ [Makedirs (output_folder W)]) Hread)
    as (n1 & evs1 & Hload & Hsaved1).
  eexists _, (Makedirs (output_folder W) :: evs1). split_and!; last first.
  - unfold main. rewrite Hex. cbn [negb]. step.
    erewrite bind_ret_eq by exact Hload. reflexivity.
  - done.
  - done.
  - cbn [trace]. by rewrite <-app_assoc.
  - cbn [heap]. by rewrite lookup_new.
Qed.

(** X7.  when the fit fails, with whatever exception, the run ends with that
    exception: it is not caught and no chart is written. *)
Theorem fit_failure_is_fatal d0 e s :
  path_exists W (input_folder W) →
  read_csv W (path_join W (input_folder W) (lit "ev_data.csv")) usecols = inr d0 →
  let sample := index_le 2023 (ev_adoption_by_year (cleaned_frame d0)) in
  curve_fit W exp_growth (index_sub sample.*1 (index_min sample.*1)) sample.*2 = inl e →
  ∃ s' evs,
    main W s = (Raise e, s') ∧
    trace s' = trace s ++ evs ∧
    saved_files evs = [].
Proof.
  intros Hex Hread sample Hfit.
  destruct (main_loaded d0 s Hex Hread) as (s1 & evs1 & Hl & Htr & Hsaved & _ & Hmain).
  pose proof (forecast_run_state W _ _ s1 Hl) as Hrun. cbn zeta in Hrun.
  fold sample in Hrun. rewrite Hfit in Hrun.
  rewrite Hmain. erewrite bind_raise_eq by exact Hrun.
  eexists _, _. split_and!; [done|..].
  - cbn [trace]. by rewrite Htr, <-app_assoc.
  - by rewrite saved_files_app, Hsaved.
Qed.

(** The map the forecast returns lets the renderer find its six years. *)
Lemma forecast_lookups (v : Z → F) :
  is_Some (mapM (λ y, dict_zip (inl <$> [2024; 2025; 2026; 2027; 2028; 2029])
                        (v <$> [2024; 2025; 2026; 2027; 2028; 2029]) !! inl y)
             (arange 2024 (2029 + 1))).
Proof.
  apply mapM_is_Some, Forall_forall. intros y Hy.
  unfold arange in Hy. apply elem_of_seqZ in Hy.
  destruct (forecast_dict v) as (_ & _ & Hlook). cbn zeta in Hlook.
  unfold compose. rewrite Hlook by lia. by eexists.
Qed.

(** X8.  a run on a readable file whose fit succeeds returns normally and
    writes the eight charts, named after the output folder and ['ev_data'],
    with one timestamp: the forecast always holds the six years the last
    chart looks up. *)
Theorem main_writes_eight_charts d0 a b s :
  needs_two_points W →
  path_exists W (input_folder W) →
  read_csv W (path_join W (input_folder W) (lit "ev_data.csv")) usecols = inr d0 →
  Forall int16 (years (cleaned_frame d0)) →
  let sample := index_le 2023 (ev_adoption_by_year (cleaned_frame d0)) in
  curve_fit W exp_growth (index_sub sample.*1 (index_min sample.*1)) sample.*2
    = inr (a, b) →
  ∃ s' evs n,
    main W s = (Ret (), s') ∧
    trace s' = trace s ++ evs ∧
    saved_files evs =
      (λ slug, chart_filename (path_join W (output_folder W) (lit "ev_data")) slug
                 (strftime (wall_clock W n))) <$> chart_slugs.
Proof.
  intros Hcontract Hex Hread Hint sample Hfit.
  destruct (main_loaded d0 s Hex Hread) as (s1 & evs1 & Hl & Htr & Hsaved & _ & Hmain).
  pose proof (forecast_run_state W _ _ s1 Hl) as Hrun. cbn zeta in Hrun.
  fold sample in Hrun. rewrite Hfit in Hrun. cbn [fst snd] in Hrun.
  destruct (index_min sample.*1) as [year_min|] eqn:Hmin; last first.
  { apply index_min_None in Hmin.
    destruct (Hcontract exp_growth (index_sub sample.*1 None) sample.*2) as [e He].
    - rewrite length_fmap, <-(length_fmap fst), Hmin. cbn. lia.
    - by rewrite He in Hfit. }
  destruct (index_min_spec _ _ Hmin) as [Hin _].
  apply elem_of_filtered_keys in Hin as [Hin Hc].
  assert (int16 year_min) as H16 by (rewrite Forall_forall in Hint; auto).
  rewrite forecast_keys, forecast_values in Hrun by done.
  rewrite Hmain. erewrite bind_ret_eq by exact Hrun. do 2 step.
  match goal with |- context [plot_all_charts W ?l ?fm ?p ?st] =>
    destruct (plot_result W l (cleaned_frame d0) fm p st Hl)
      as (s' & evs & Hplot & Htr' & _ & Hfiles) end.
  fold sample in Hplot, Hfiles. rewrite Hmin in Hplot, Hfiles.
  destruct (forecast_lookups (λ y, exp_growth (F_of_Z (y - year_min)) a b))
    as [values Hvalues].
  rewrite Hvalues in Hplot, Hfiles. cbn [ticks trace] in *.
  eexists s', _, _. split_and!; [exact Hplot| |].
  - rewrite Htr', Htr, <-!app_assoc. reflexivity.
  - rewrite !saved_files_app, Hsaved, Hfiles. reflexivity.
Qed.
(** X9.  the output folder is made before anything else, and only when the
    input folder exists; without it the run logs one error, returns, and
    reads, fits and draws nothing. *)
Theorem output_folder_made_first s :
  ∃ r s' evs,
    main W s = (r, s') ∧ trace s' = trace s ++ evs ∧
    if path_exists W (input_folder W)
    then head evs = Some (Makedirs (output_folder W))
    else r = Ret () ∧ heap s' = heap s ∧ evs = [LogError NoInputFolder].
Proof.
  destruct (path_exists W (input_folder W)) eqn:Hex.
  - destruct (read_csv W (path_join W (input_folder W) (lit "ev_data.csv")) usecols)
      as [e|d0] eqn:Hread.
    + destruct s as [h n tr]. unfold main. rewrite Hex. cbn [negb]. step.
      pose proof (load_data_fail W _ e h (S n) (tr ++ [Makedirs (output_folder W)]) Hread)
        as Hload.
      destruct (is_Exception e).
      * erewrite bind_ret_eq by exact Hload.
        eexists _, _, _. split; [reflexivity|]. cbn [trace].
        rewrite <-app_assoc. split; [reflexivity|done].
      * erewrite bind_raise_eq by exact Hload.
        eexists _, _, _. split; [reflexivity|]. cbn [trace]. split; [reflexivity|done].
    + destruct (main_loaded d0 s (Is_true_true_2 _ Hex) Hread)
        as (s1 & evs1 & Hl & Htr & _ & Hhead & Hmain).
      destruct evs1 as [|ev evs1]; [done|]. injection Hhead as ->.
      pose proof (forecast_run_state W _ _ s1 Hl) as Hrun. cbn zeta in Hrun.
      rewrite Hmain. destruct (curve_fit W _ _ _) as [e|p].
      * erewrite bind_raise_eq by exact Hrun.
        eexists _, _, _. split; [reflexivity|]. cbn [trace].
        rewrite Htr, <-app_assoc. split; [reflexivity|done].
      * erewrite bind_ret_eq by exact Hrun. do 2 step.
        match goal with |- context [plot_all_charts W ?l ?fm ?p ?st] =>
          destruct (plot_result W l (cleaned_frame d0) fm p st Hl)
            as (s' & evs & Hplot & Htr' & _) end.
        cbn [trace] in Htr'. eexists _, s', _. split; [exact Hplot|].
        rewrite Htr', Htr, <-!app_assoc. split; [reflexivity|done].
  - exists (Ret ()), (mkState (heap s) (S (ticks s)) (trace s ++ [LogError NoInputFolder])),
      [LogError NoInputFolder].
    unfold main. rewrite Hex. by destruct s.
Qed.
End EndToEnd.

Section YearlyCounts.
Context {F : Type} `{!FloatOps F}.
Implicit Types (d : DataFrame F).
Local Arguments occurrences : simpl never.

Lemma strictly_sorted_keys {V} (s : list (Z * V)) :
  StronglySorted key_le s → NoDup s.*1 → StronglySorted Z.lt s.*1.
Proof.
  induction 1 as [|e s Hs IH He]; intros Hnd; [constructor|].
  rewrite fmap_cons in *. apply NoDup_cons in Hnd as [Hnotin Hnd].
  constructor; [by apply IH|].
  apply Forall_forall. intros y (e' & -> & He')%list_elem_of_fmap.
  rewrite Forall_forall in He. specialize (He e' He'). unfold key_le in He.
  assert (e.1 ≠ e'.1); [|lia].
  intros Heq. apply Hnotin. rewrite Heq. by apply list_elem_of_fmap_2.
Qed.

Lemma occurrences_pos {A} `{EqDecision A} (a : A) (l : list A) :
  a ∈ l → (1 ≤ occurrences a l)%nat.
Proof.
  intros Ha. unfold occurrences.
  assert (a ∈ filter (λ x, x = a) l) as Hin by (by apply list_elem_of_filter).
  destruct (filter _ l); [by apply elem_of_nil in Hin|cbn; lia].
Qed.

Lemma occurrences_Permutation {A} `{EqDecision A} (a : A) (l1 l2 : list A) :
  l1 ≡ₚ l2 → occurrences a l1 = occurrences a l2.
Proof. intros Hp. unfold occurrences. by rewrite Hp. Qed.

(** X10.  the yearly counts list every model year of the table once, in
    strictly ascending order, each with the number of its rows, which is at
    least one. *)
Theorem yearly_counts_ascending d :
  StronglySorted Z.lt (ev_adoption_by_year d).*1 ∧
  (∀ y, y ∈ (ev_adoption_by_year d).*1 ↔ y ∈ years d) ∧
  ∀ y n, (y, n) ∈ ev_adoption_by_year d →
         n = occurrences y (years d) ∧ (1 ≤ n)%nat.
Proof.
  split_and!.
  - apply strictly_sorted_keys; [apply adoption_sorted|apply NoDup_adoption_keys].
  - intros y. rewrite adoption_keys. apply elem_of_unique.
  - intros y n [Hy Hn]%elem_of_adoption. cbn [fst snd] in *. subst n.
    split; [done|]. by apply occurrences_pos.
Qed.

(** X11.  the yearly counts, and with them the data passed to the fit, do not
    depend on the order of the rows. *)
Theorem yearly_counts_ignore_row_order d1 d2 :
  records d1 ≡ₚ records d2 →
  ev_adoption_by_year d1 = ev_adoption_by_year d2 ∧
  index_le 2023 (ev_adoption_by_year d1) = index_le 2023 (ev_adoption_by_year d2).
Proof.
  intros Hp. assert (years d1 ≡ₚ years d2) as Hy by (unfold years; by rewrite Hp).
  assert (ev_adoption_by_year d1 = ev_adoption_by_year d2) as ->; [|done].
  apply (StronglySorted_unique_strong key_le); [|apply adoption_sorted..|].
  - intros [y1 n1] [y2 n2] [H1 Hn1]%elem_of_adoption [H2 Hn2]%elem_of_adoption.
    unfold key_le. cbn [fst snd] in *. intros ??. assert (y1 = y2) as <- by lia.
    rewrite (occurrences_Permutation y1 _ _ Hy) in Hn1. by subst.
  - apply NoDup_Permutation.
    + eapply NoDup_fmap_1, NoDup_adoption_keys.
    + eapply NoDup_fmap_1, NoDup_adoption_keys.
    + intros [y n]. rewrite !elem_of_adoption. cbn [fst snd].
      rewrite (occurrences_Permutation y _ _ Hy).
      split; intros [Hin ?]; (split; [|done]); revert Hin; by rewrite Hy.
Qed.

(** X12.  the line of average ranges has one point for each model year of the
    table: its years are those of the adoption bars, in the same order. *)
Theorem average_range_years d :
  (mean_range_by_year d).*1 = (ev_adoption_by_year d).*1.
Proof.
  unfold mean_range_by_year. rewrite <-list_fmap_compose.
  change (fst ∘ _) with (@id Z). rewrite list_fmap_id.
  apply (StronglySorted_unique Z.le).
  - apply StronglySorted_merge_sort; apply _.
  - eapply StronglySorted_fmap; [|apply adoption_sorted]. by intros ??.
  - rewrite merge_sort_Permutation. symmetry. apply adoption_keys.
Qed.
End YearlyCounts.

Section Labels.
Implicit Types x y : str.

(** X13.  shortening a label twice is shortening it once, no shown label is
    longer than 15 characters, and two different names get the same label
    exactly when both are longer than 12 characters and agree on their
    first 12. *)
Theorem shorten_collisions x y :
  shorten (shorten x) = shorten x ∧
  (length (shorten x) ≤ 15)%nat ∧
  (shorten x = shorten y ↔
     x = y ∨ ((12 < length x)%nat ∧ (12 < length y)%nat ∧ take 12 x = take 12 y)).
Proof.
  assert (∀ z, (12 < length z)%nat → length (take 12 z ++ ellipsis) = 15%nat) as Hlen.
  { intros z Hz. rewrite length_app, length_take. change (length ellipsis) with 3%nat. lia. }
  split_and!.
  - unfold shorten at 2 3. destruct (decide (12 < length x)%nat) as [Hx|Hx].
    + unfold shorten. rewrite decide_True by (rewrite Hlen; lia).
      rewrite take_app_le by (rewrite length_take; lia).
      by rewrite take_take, Nat.min_id.
    + unfold shorten. by rewrite decide_False.
  - unfold shorten. destruct (decide _); [rewrite Hlen by done|]; lia.
  - unfold shorten.
    destruct (decide (12 < length x)%nat) as [Hx|Hx],
             (decide (12 < length y)%nat) as [Hy|Hy]; split.
    + intros Heq%app_inv_tail. right. done.
    + intros [->|(_ & _ & ->)]; done.
    + intros Heq. apply (f_equal length) in Heq. rewrite Hlen in Heq by done. lia.
    + intros [->|(_ & ? & _)]; [done|lia].
    + intros Heq. apply (f_equal length) in Heq. rewrite Hlen in Heq by done. lia.
    + intros [->|(? & _ & _)]; [done|lia].
    + intros ->. by left.
    + intros [->|(? & _ & _)]; [done|lia].
Qed.
End Labels.

Section Subsets.
Context {F : Type} `{!FloatOps F}.
Implicit Types (d : DataFrame F) (c : CatCol) (ks : list str).
Local Arguments occurrences : simpl never.

Lemma isin_spec (v : option str) ks : isin v ks ↔ v ∈ Some <$> ks.
Proof.
  destruct v as [k|]; cbn.
  - rewrite bool_decide_spec, list_elem_of_fmap. split; [by eauto|].
    by intros (k' & [= ->] & ?).
  - split; [done|]. by intros (k' & [=] & ?)%list_elem_of_fmap.
Qed.

Lemma records_select_isin c ks d :
  records (select_isin c ks d) = filter (λ r, isin (cell c r) ks) (records d).
Proof.
  unfold records, select_isin. cbn [frame_rows].
  apply (fmap_filter snd (λ r : Row F, isin (cell c r) ks)).
Qed.

Lemma len_select_isin c ks d :
  NoDup ks →
  len (select_isin c ks d) =
    sum_list ((λ k, occurrences (Some k) (column c d)) <$> ks).
Proof.
  intros Hnd.
  change (λ k, occurrences (Some k) (column c d))
    with ((λ v, occurrences v (column c d)) ∘ Some).
  rewrite list_fmap_compose, sum_occurrences by (by apply NoDup_fmap; [apply _|]).
  rewrite <-len_records, records_select_isin. unfold column.
  rewrite <-(fmap_filter (cell c) (λ v, v ∈ Some <$> ks)), length_fmap. f_equal.
  apply list_filter_iff. intros r. apply isin_spec.
Qed.

Lemma value_counts_entries c d :
  Forall (λ e, e.2 = occurrences (Some e.1) (column c d)) (value_counts c d).
Proof.
  unfold value_counts. rewrite sort_counts_desc_Permutation.
  unfold category_counts. apply Forall_fmap, Forall_forall. by intros k _.
Qed.

Lemma value_counts_keys c d : (value_counts c d).*1 ≡ₚ frame_cats d c.
Proof.
  unfold value_counts. rewrite sort_counts_desc_Permutation.
  unfold category_counts. rewrite <-list_fmap_compose.
  change (fst ∘ _) with (@id str). by rewrite list_fmap_id.
Qed.

Lemma top_counts c n d :
  (take n (value_counts c d)).*2 =
    (λ k, occurrences (Some k) (column c d)) <$> (take n (value_counts c d)).*1.
Proof.
  pose proof (Forall_take _ n _ (value_counts_entries c d)) as Hall.
  induction Hall as [|e es He _ IH]; [done|]. rewrite !fmap_cons. by rewrite He, IH.
Qed.

Lemma NoDup_top_keys c n d :
  NoDup (frame_cats d c) → NoDup (take n (value_counts c d)).*1.
Proof.
  intros Hnd. rewrite fmap_take.
  eapply sublist_NoDup; [|apply sublist_take]. by rewrite value_counts_keys.
Qed.

Lemma len_top_subset c n d :
  NoDup (frame_cats d c) →
  len (select_isin c (take n (value_counts c d)).*1 d) =
    sum_list (take n (value_counts c d)).*2.
Proof.
  intros Hnd. rewrite len_select_isin by (by apply NoDup_top_keys).
  by rewrite top_counts.
Qed.

(** X14.  the rows kept for the three top counties are as many as the three
    counts add up to, each of them is a row of the table whose county is one
    of the three; likewise for the three top makes. *)
Theorem top_subsets d :
  NoDup (frame_cats d cCounty) → NoDup (frame_cats d cMake) →
  len (top_counties_data d) = sum_list (take 3 (ev_county_distribution d)).*2 ∧
  len (top_makes_data d) = sum_list (take 3 (ev_make_distribution d)).*2 ∧
  (∀ r, r ∈ records (top_counties_data d) ↔
        r ∈ records d ∧ ∃ k, County r = Some k ∧ k ∈ top_counties d) ∧
  (∀ r, r ∈ records (top_makes_data d) ↔
        r ∈ records d ∧ ∃ k, Make r = Some k ∧ k ∈ top_3_makes d).
Proof.
  intros Hc Hm.
  assert (∀ c ks r, r ∈ records (select_isin c ks d) ↔
            r ∈ records d ∧ ∃ k, cell c r = Some k ∧ k ∈ ks) as Hrows.
  { intros c ks r. rewrite records_select_isin, list_elem_of_filter.
    destruct (cell c r) as [k|]; cbn; rewrite ?bool_decide_spec.
    - split; [intros [??]; by eauto|]. by intros [? (k' & [= ->] & ?)].
    - split; [by intros [[] _]|]. by intros [_ (k' & [=] & _)]. }
  split_and!.
  - by apply (len_top_subset cCounty 3).
  - unfold top_makes_data, top_3_makes, ev_make_distribution.
    rewrite take_take. by apply (len_top_subset cMake 3).
  - intros r. apply (Hrows cCounty).
  - intros r. apply (Hrows cMake).
Qed.
End Subsets.

Section Partition.
Context {A K : Type} `{EqDecision K} (key : A → K).

Lemma bind_ext_in {B C} (f g : B → list C) (l : list B) :
  (∀ x, x ∈ l → f x = g x) → l ≫= f = l ≫= g.
Proof.
  induction l as [|x l IH]; intros Hfg; [done|]. csimpl.
  rewrite (Hfg x) by left. rewrite IH; [done|]. intros y Hy. apply Hfg. by right.
Qed.

(** The groups of a list by a key, over the distinct keys, hold every
    element once. *)
Lemma partition_by_key (ks : list K) (l : list A) :
  NoDup ks → (∀ x, x ∈ l → key x ∈ ks) →
  ks ≫= (λ k, filter (λ x, key x = k) l) ≡ₚ l.
Proof.
  intros Hnd. revert l. induction Hnd as [|k ks Hk Hnd IH]; intros l Hin.
  - destruct l as [|x l]; [done|]. specialize (Hin x (list_elem_of_here _ _)).
    by apply elem_of_nil in Hin.
  - csimpl.
    rewrite (bind_ext_in _ (λ k', filter (λ x, key x = k') (filter (λ x, key x ≠ k) l))).
    + rewrite IH; [apply filter_app_complement|].
      intros x [Hne Hx]%list_elem_of_filter.
      specialize (Hin x Hx). apply elem_of_cons in Hin as [?|?]; done.
    + intros k' Hk'. rewrite list_filter_filter. apply list_filter_iff.
      intros x. split; [|tauto]. intros ->. split; [done|]. by intros ->.
Qed.

Lemma sum_filter_pos (f : A → nat) (l : list A) :
  sum_list (f <$> filter (λ x, 0 < f x)%nat l) = sum_list (f <$> l).
Proof.
  induction l as [|x l IH]; [done|]. rewrite filter_cons.
  destruct (decide (0 < f x)%nat); cbn; rewrite IH; lia.
Qed.

Lemma zip_fmap_same {B C} (f : A → B) (g : A → C) (l : list A) :
  zip (f <$> l) (g <$> l) = (λ x, (f x, g x)) <$> l.
Proof. induction l as [|x l IH]; [done|]. cbn. by rewrite IH. Qed.
End Partition.

Section Groups.
Context {F : Type} `{!FloatOps F}.
Implicit Types (d : DataFrame F) (c : CatCol) (ks : list str).
Local Arguments occurrences : simpl never.

Lemma elem_of_groups c1 c2 d k :
  k ∈ groups c1 c2 d →
  (0 < length (group c1 c2 k d))%nat ∧
  ∃ r, r ∈ records d ∧ cell c1 r = Some k.1 ∧ cell c2 r = Some k.2.
Proof.
  unfold groups. intros [Hpos _]%list_elem_of_filter. split; [done|].
  destruct (group c1 c2 k d) as [|r rs] eqn:Hg; [cbn in Hpos; lia|].
  assert (r ∈ group c1 c2 k d) as Hr by (rewrite Hg; left).
  unfold group in Hr. apply list_elem_of_filter in Hr as [[??] ?]. by exists r.
Qed.

Lemma NoDup_pairs (l1 l2 : list str) :
  NoDup l1 → NoDup l2 → NoDup (k1 ← l1; k2 ← l2; [(k1, k2)]).
Proof.
  intros H1 H2. apply NoDup_bind; [| |done].
  - intros x1 x2 y _ _ (k & Hy & _)%list_elem_of_bind (k' & Hy' & _)%list_elem_of_bind.
    apply list_elem_of_singleton in Hy, Hy'. by simplify_eq.
  - intros x _. apply NoDup_bind; [| |done].
    + intros y1 y2 y _ _ Hy%list_elem_of_singleton Hy'%list_elem_of_singleton.
      by simplify_eq.
    + intros y _. apply NoDup_singleton.
Qed.

Lemma group_size c1 c2 d (k : str * str) :
  length (group c1 c2 k d) =
    occurrences (Some k.1, Some k.2) ((λ r, (cell c1 r, cell c2 r)) <$> records d).
Proof.
  unfold occurrences, group.
  rewrite <-(fmap_filter (λ r, (cell c1 r, cell c2 r)) (λ v, v = (Some k.1, Some k.2))).
  rewrite length_fmap. f_equal. apply list_filter_iff. intros r. split.
  - by intros [-> ->].
  - by intros [= -> ->].
Qed.

(** X15.  grouping by two categorical columns keeps the observed pairs only:
    every group has at least one row, and the sizes are those of the groups;
    on a cleaned table the sizes add up to the number of rows. *)
Theorem grouped_sizes c1 c2 d :
  (∀ k n, (k, n) ∈ groupby_size c1 c2 d →
     (1 ≤ n)%nat ∧ n = length (group c1 c2 k d) ∧
     ∃ r, r ∈ records d ∧ cell c1 r = Some k.1 ∧ cell c2 r = Some k.2) ∧
  (categorical d → cleaned d → sum_list (groupby_size c1 c2 d).*2 = len d).
Proof.
  split.
  - intros k n (k' & [= -> ->] & Hk)%list_elem_of_fmap.
    destruct (elem_of_groups _ _ _ _ Hk) as [Hpos Hr]. split_and!; [lia|done|done].
  - intros Hcat Hclean. unfold groupby_size, groups.
    rewrite <-list_fmap_compose.
    change (snd ∘ _) with (λ k, length (group c1 c2 k d)).
    rewrite (sum_filter_pos (λ k, length (group c1 c2 k d))).
    rewrite (list_fmap_ext _ ((λ v, occurrences v ((λ r, (cell c1 r, cell c2 r)) <$> records d))
                               ∘ (λ k : str * str, (Some k.1, Some k.2))))
      by (intros ???; apply group_size).
    rewrite list_fmap_compose, sum_occurrences_all.
    + by rewrite length_fmap, len_records.
    + apply NoDup_fmap_2_strong.
      * intros [??] [??] _ _ [= -> ->]. done.
      * apply NoDup_pairs; apply Hcat.
    + intros v (r & -> & Hr)%list_elem_of_fmap.
      unfold cleaned in Hclean. rewrite Forall_forall in Hclean.
      destruct (Hclean r Hr) as [Hna _].
      destruct (notna_cell r c1 Hna) as [k1 Hk1], (notna_cell r c2 Hna) as [k2 Hk2].
      rewrite Hk1, Hk2. apply (list_elem_of_fmap_2 (λ k : str * str, (Some k.1, Some k.2)) _ (k1, k2)).
      apply list_elem_of_bind. exists k1. split; [|by apply (proj2 (Hcat c1) r)].
      apply list_elem_of_bind. exists k2. split; [by apply list_elem_of_singleton|].
      by apply (proj2 (Hcat c2) r).
Qed.
End Groups.

Section Bars.
Context {F : Type} `{!FloatOps F} (W : World F).
Implicit Types (d : DataFrame F) (s : state F) (l : nat) (t : Table F).

Lemma drawn_bars_app (tr1 tr2 : list (event F)) :
  drawn_bars (tr1 ++ tr2) = drawn_bars tr1 ++ drawn_bars tr2.
Proof. apply omap_app. Qed.

Lemma plot_bars l d fm p s :
  heap s !! l = Some (OFrame d) →
  ∃ r s' evs,
    plot_all_charts W l fm p s = (r, s') ∧ trace s' = trace s ++ evs ∧
    drawn_bars evs =
      drawn_bars (barh_events (city_table d)) ++
      [((ev_type_distribution d).*1, Count <$> (ev_type_distribution d).*2, None);
       ((ev_make_distribution d).*1, Count <$> (ev_make_distribution d).*2, None)] ++
      drawn_bars (barh_events (model_table d)) ++
      drawn_bars (barh_events (range_table d)).
Proof.
  destruct s as [h n tr]. cbn [heap trace]. intros Hl.
  destruct (index_min (index_le 2023 (sort_index (value_counts_year d))).*1) as [m|] eqn:Hmin;
    [destruct (mapM (λ y, fm !! inl y) (arange 2024 (2029 + 1))) as [values|] eqn:Hfm|].
  all: eexists _, _, _; split;
    [ unfold plot_all_charts; rewrite <-(app_nil_r h) at 1; repeat chart_step;
      rewrite Hmin; repeat chart_step; try (rewrite Hfm; repeat chart_step);
      try rewrite save_and_release_eq; rewrite <-!app_assoc; reflexivity
    | split; [reflexivity|] ].
  all: cbn [trace]; rewrite !drawn_bars_app; unfold drawn_bars;
    unfold city_table, model_table, range_table, top_counties_data, top_makes_data, top_3_makes;
    cbn [omap list_omap app]; rewrite ?app_nil_r; reflexivity.
Qed.
End Bars.

Section Legends.
Context {F : Type} `{!FloatOps F} (W : World F).
Implicit Types (d : DataFrame F) (s : state F) (l : nat) (t : Table F).

Lemma drawn_bars_barh t :
  drawn_bars (barh_events t) =
    (λ k, let subset := filter (λ r, r.1.1 = k) (tab_rows t) in
          ((λ r, r.1.2) <$> subset, snd <$> subset, Some k))
      <$> unique ((λ r, r.1.1) <$> tab_rows t).
Proof.
  unfold barh_events, drawn_bars. induction (unique _) as [|k ks IH]; [done|].
  cbn. f_equal. apply IH.
Qed.

Lemma legend_labels t (ks : list str) :
  (∀ r, r ∈ tab_rows t → r.1.1 ∈ ks) →
  (length (drawn_bars (barh_events t)) ≤ length ks)%nat ∧
  ∀ b, b ∈ drawn_bars (barh_events t) → ∃ k, b.2 = Some k ∧ k ∈ ks.
Proof.
  intros Hks. rewrite drawn_bars_barh.
  assert (∀ k, k ∈ unique ((λ r, r.1.1) <$> tab_rows t) → k ∈ ks) as Hsub.
  { intros k Hk. rewrite elem_of_unique in Hk.
    apply list_elem_of_fmap in Hk as (r & -> & Hr). by apply Hks. }
  split.
  - rewrite length_fmap. apply submseteq_length, NoDup_submseteq; [apply NoDup_unique|done].
  - intros b (k & -> & Hk)%list_elem_of_fmap. exists k. split; [done|by apply Hsub].
Qed.

Lemma groups_of_subset c1 c2 ks d k :
  k ∈ groups c1 c2 (select_isin c1 ks d) → k.1 ∈ ks.
Proof.
  intros Hk. destruct (elem_of_groups _ _ _ _ Hk) as (_ & r & Hr & Hc & _).
  rewrite records_select_isin in Hr. apply list_elem_of_filter in Hr as [Hin _].
  rewrite Hc in Hin. cbn in Hin. by apply bool_decide_unpack in Hin.
Qed.

Lemma pair_counts_keys c1 c2 ks d e :
  e ∈ pair_counts c1 c2 (select_isin c1 ks d) → e.1.1 ∈ ks.
Proof.
  unfold pair_counts. rewrite sort_counts_desc_Permutation.
  intros (k & -> & Hk)%list_elem_of_fmap. by apply groups_of_subset in Hk.
Qed.

Lemma pair_means_keys c1 c2 ks d e :
  e ∈ pair_means c1 c2 (select_isin c1 ks d) → e.1.1 ∈ ks.
Proof.
  unfold pair_means. rewrite sort_floats_desc_Permutation.
  intros (k & -> & Hk)%list_elem_of_fmap. by apply groups_of_subset in Hk.
Qed.

Lemma elem_of_take_1 {A} (n : nat) (x : A) (xs : list A) : x ∈ take n xs → x ∈ xs.
Proof. intros H. eapply elem_of_sublist; [done|apply sublist_take]. Qed.

Lemma fmap_bind_list {A B C} (f : B → C) (g : A → list B) (xs : list A) :
  f <$> (xs ≫= g) = xs ≫= (λ x, f <$> g x).
Proof. induction xs as [|x xs IH]; [done|]. csimpl. by rewrite fmap_app, IH. Qed.

Lemma city_table_keys d r : r ∈ tab_rows (city_table d) → r.1.1 ∈ top_counties d.
Proof.
  unfold city_table, shortened, count_table, top_counties_data. cbn [tab_rows].
  intros (r' & -> & (e & -> & He)%list_elem_of_fmap)%list_elem_of_fmap.
  cbn [fst snd]. apply elem_of_take_1 in He. by apply pair_counts_keys in He.
Qed.

Lemma model_table_keys d r : r ∈ tab_rows (model_table d) → r.1.1 ∈ top_3_makes d.
Proof.
  unfold model_table, shortened, count_table, top_makes_data. cbn [tab_rows].
  intros (r' & -> & Hr)%list_elem_of_fmap. apply elem_of_take_1 in Hr.
  apply list_elem_of_fmap in Hr as (e & -> & He).
  cbn [fst snd]. by apply pair_counts_keys in He.
Qed.

Lemma range_table_keys d r : r ∈ tab_rows (range_table d) → r.1.1 ∈ top_3_makes d.
Proof.
  unfold range_table, shortened, mean_table, top_makes_data. cbn [tab_rows].
  intros (r' & -> & Hr)%list_elem_of_fmap. apply elem_of_take_1 in Hr.
  apply list_elem_of_fmap in Hr as (e & -> & He).
  cbn [fst snd]. by apply pair_means_keys in He.
Qed.

(** X16.  The three charts with a legend draw one group of bars per value
    of the first key; there are never more groups than colours
    ([len(top_counties)], [len(top_3_makes)]), so [colors[i]] stays in
    range, and every legend label is one of the top counties, or of the top
    three makes.  The two other bar charts carry no label. *)
Theorem legend_colours_suffice l d fm p s :
  heap s !! l = Some (OFrame d) →
  ∃ r s' evs,
    plot_all_charts W l fm p s = (r, s') ∧ trace s' = trace s ++ evs ∧
    let cities := drawn_bars (barh_events (city_table d)) in
    let models := drawn_bars (barh_events (model_table d)) in
    let ranges := drawn_bars (barh_events (range_table d)) in
    drawn_bars evs =
      cities ++
      [((ev_type_distribution d).*1, Count <$> (ev_type_distribution d).*2, None);
       ((ev_make_distribution d).*1, Count <$> (ev_make_distribution d).*2, None)] ++
      models ++ ranges ∧
    (length cities ≤ length (top_counties d) ≤ 3)%nat ∧
    (length models ≤ length (top_3_makes d) ≤ 3)%nat ∧
    (length ranges ≤ length (top_3_makes d))%nat ∧
    (∀ b, b ∈ cities → ∃ k, b.2 = Some k ∧ k ∈ top_counties d) ∧
    (∀ b, b ∈ models ++ ranges → ∃ k, b.2 = Some k ∧ k ∈ top_3_makes d).
Proof.
  intros Hl. destruct (plot_bars W l d fm p s Hl) as (r & s' & evs & Hrun & Htr & Hbars).
  exists r, s', evs. split; [done|]. split; [done|]. cbn zeta. split; [done|].
  destruct (legend_labels (city_table d) (top_counties d) (city_table_keys d)) as [Hc1 Hc2].
  destruct (legend_labels (model_table d) (top_3_makes d) (model_table_keys d)) as [Hm1 Hm2].
  destruct (legend_labels (range_table d) (top_3_makes d) (range_table_keys d)) as [Hr1 Hr2].
  assert (length (top_counties d) ≤ 3)%nat.
  { unfold top_counties. rewrite length_fmap, length_take. lia. }
  assert (length (top_3_makes d) ≤ 3)%nat.
  { unfold top_3_makes. rewrite length_fmap, length_take. lia. }
  split_and!; try done.
  intros b [?|?]%elem_of_app; auto.
Qed.

Lemma barh_groups_eq l t s :
  heap s !! l = Some (OTable t) →
  barh_groups l s =
    (Ret (), mkState (heap s)
               (length (unique ((λ r, r.1.1) <$> tab_rows t)) + ticks s)%nat
               (trace s ++ barh_events t)).
Proof.
  destruct s as [h n tr]. cbn [heap ticks trace]. intros Hl.
  pose proof (lookup_lt_Some _ _ _ Hl) as Hlt.
  pose proof (barh_groups_new 0 t (take l h) (drop l h) n tr) as H.
  rewrite take_drop, length_take_le, Nat.add_0_r in H by lia.
  apply H. by rewrite lookup_drop, Nat.add_0_r.
Qed.

Lemma bars_barh t :
  bars (barh_events t) =
    unique ((λ r, r.1.1) <$> tab_rows t) ≫=
      λ k, (λ r, (r.1.2, r.2, Some r.1.1)) <$> filter (λ r, r.1.1 = k) (tab_rows t).
Proof.
  unfold bars, barh_events. induction (unique _) as [|k ks IH]; [done|].
  csimpl. rewrite IH. f_equal.
  rewrite zip_fmap_same, <-list_fmap_compose.
  apply list_fmap_ext. intros i r Hr.
  apply list_elem_of_lookup_2, list_elem_of_filter in Hr as [<- _]. done.
Qed.

(** X17.  The loop over the values of the first key column draws every row
    of the table as exactly one bar, labelled with the row's own key; it
    changes no object and no group is empty. *)
Theorem grouped_bars_cover_the_table l t s :
  heap s !! l = Some (OTable t) →
  ∃ s' evs,
    barh_groups l s = (Ret (), s') ∧ heap s' = heap s ∧ trace s' = trace s ++ evs ∧
    bars evs ≡ₚ (λ r, (r.1.2, r.2, Some r.1.1)) <$> tab_rows t ∧
    ∀ e, e ∈ evs → ∃ y width k,
      e = Barh y width (Some k) ∧ (0 < length y)%nat ∧ length y = length width.
Proof.
  intros Hl. eexists _, (barh_events t). split; [by apply barh_groups_eq|].
  split; [done|]. split; [done|]. split.
  - rewrite bars_barh, <-fmap_bind_list.
    apply fmap_Permutation, (partition_by_key (λ r : str * str * num F, r.1.1)).
    + apply NoDup_unique.
    + intros r Hr. rewrite elem_of_unique.
      by apply (list_elem_of_fmap_2 (λ r : str * str * num F, r.1.1)).
  - unfold barh_events. intros e (k & -> & Hk)%list_elem_of_fmap.
    eexists _, _, k. split; [done|]. rewrite !length_fmap. split; [|done].
    rewrite elem_of_unique in Hk. apply list_elem_of_fmap in Hk as (r & -> & Hr).
    assert (r ∈ filter (λ r0 : str * str * num F, r0.1.1 = r.1.1) (tab_rows t)) as Hin
      by (by apply list_elem_of_filter).
    destruct (filter _ _); [by apply elem_of_nil in Hin|cbn; lia].
Qed.
End Legends.

(** ** The top selections *)

Section TopSelections.
Context {F : Type} `{!FloatOps F}.
Implicit Types (df : DataFrame F) (c : CatCol) (ks : list str).
Local Arguments occurrences : simpl never.

Lemma top_by_of_top_n {K V} (ge : relation V) (n : nat) (candidate : K → Prop)
    (score : K → V) (cands selected : list (K * V)) :
  top_n (λ a b, ge a.2 b.2) n cands selected →
  NoDup cands.*1 →
  (∀ k, candidate k ↔ k ∈ cands.*1) →
  (∀ k v, (k, v) ∈ cands → v = score k) →
  top_by ge n candidate score selected.
Proof.
  intros (Hle & Hlen & rest & Hperm & Hge) Hnd Hcand Hscore.
  assert (∀ e, e ∈ selected → e ∈ cands) as Hsub.
  { intros e He. rewrite Hperm. apply elem_of_app. by left. }
  split_and!.
  - done.
  - rewrite Hperm, fmap_app in Hnd. by apply NoDup_app in Hnd as (? & _ & _).
  - intros k v Hkv. split; [|by apply Hscore, Hsub].
    apply Hcand. by apply (list_elem_of_fmap_2 fst _ (k, v)), Hsub.
  - intros k Hk Hout. apply Hcand, list_elem_of_fmap in Hk as ([k0 v] & -> & Hin).
    cbn [fst] in *. pose proof (Hscore _ _ Hin) as ->.
    rewrite Hperm in Hin. apply elem_of_app in Hin as [Hin|Hin].
    { destruct Hout. by apply (list_elem_of_fmap_2 fst _ (k0, score k0)). }
    split.
    + apply Permutation_length in Hperm. rewrite length_app in Hperm.
      destruct rest; [by apply elem_of_nil in Hin|]. cbn in Hperm. lia.
    + intros k' v' Hsel. apply (Hge (k', v') (k0, score k0)); done.
Qed.

Lemma count_column c k df :
  occurrences (Some k) (column c df) =
    length (filter (λ r, cell c r = Some k) (records df)).
Proof.
  unfold occurrences, column.
  by rewrite <-(fmap_filter (cell c) (λ v, v = Some k)), length_fmap.
Qed.

(** The first [n] entries of [df[c].value_counts()]. *)
Lemma top_categories c n df :
  categorical df →
  top_by ge n (λ k, k ∈ frame_cats df c)
         (λ k, length (filter (λ r, cell c r = Some k) (records df)))
         (take n (value_counts c df)).
Proof.
  intros Hcat.
  apply (top_by_of_top_n ge n _ _ (category_counts c df)).
  - apply (top_n_take_sort count_ge).
    + intros x y _ _. apply count_ge_total.
    + intros x y z _ _ _. apply count_ge_trans.
  - unfold category_counts. rewrite <-list_fmap_compose.
    change (fst ∘ _) with (@id str). rewrite list_fmap_id. apply Hcat.
  - intros k. unfold category_counts. rewrite <-list_fmap_compose.
    change (fst ∘ _) with (@id str). by rewrite list_fmap_id.
  - intros k v (k' & [= -> ->] & _)%list_elem_of_fmap. apply count_column.
Qed.

Lemma group_select_isin c1 c2 ks df (k : str * str) :
  k.1 ∈ ks → group c1 c2 k (select_isin c1 ks df) = group c1 c2 k df.
Proof.
  intros Hk. unfold group. rewrite records_select_isin, list_filter_filter.
  apply list_filter_iff. intros r. split; [tauto|]. intros [H1 H2].
  split; [done|]. rewrite H1. cbn. by apply bool_decide_pack.
Qed.

(** The groups of the rows that have one of the keys [ks] in the first
    column. *)
Lemma groups_select_isin c1 c2 ks df :
  categorical df →
  NoDup (groups c1 c2 (select_isin c1 ks df)) ∧
  ∀ k, k ∈ groups c1 c2 (select_isin c1 ks df) ↔
       k.1 ∈ ks ∧ (0 < length (group c1 c2 k df))%nat.
Proof.
  intros Hcat. split.
  - unfold groups. apply NoDup_filter, NoDup_pairs; apply Hcat.
  - intros k. split.
    + intros Hk. pose proof (groups_of_subset _ _ _ _ _ Hk) as Hks.
      split; [done|]. rewrite <-(group_select_isin c1 c2 ks) by done.
      by apply elem_of_groups in Hk as [? _].
    + intros [Hks Hpos]. unfold groups. apply list_elem_of_filter.
      rewrite group_select_isin by done. split; [done|].
      destruct (group c1 c2 k df) as [|r rs] eqn:Hg; [cbn in Hpos; lia|].
      assert (r ∈ group c1 c2 k df) as Hr by (rewrite Hg; left).
      unfold group in Hr. apply list_elem_of_filter in Hr as [[H1 H2] Hr].
      cbn [select_isin frame_cats].
      apply list_elem_of_bind. exists k.1. split; [|by apply (proj2 (Hcat c1) r)].
      apply list_elem_of_bind. exists k.2. split; [|by apply (proj2 (Hcat c2) r)].
      destruct k. by apply list_elem_of_singleton.
Qed.

(** The first [n] entries of the sorted group sizes of such rows. *)
Lemma top_pair_counts c1 c2 ks n df :
  categorical df →
  top_by ge n
    (λ k : str * str, k.1 ∈ ks ∧
       (0 < length (filter (λ r, cell c1 r = Some k.1 ∧ cell c2 r = Some k.2) (records df)))%nat)
    (λ k, length (filter (λ r, cell c1 r = Some k.1 ∧ cell c2 r = Some k.2) (records df)))
    (take n (pair_counts c1 c2 (select_isin c1 ks df))).
Proof.
  intros Hcat. destruct (groups_select_isin c1 c2 ks df Hcat) as [Hnd Hin].
  apply (top_by_of_top_n ge n _ _ (groupby_size c1 c2 (select_isin c1 ks df))).
  - apply (top_n_take_sort count_ge).
    + intros x y _ _. apply count_ge_total.
    + intros x y z _ _ _. apply count_ge_trans.
  - unfold groupby_size. rewrite <-list_fmap_compose.
    change (fst ∘ _) with (@id (str * str)%type). by rewrite list_fmap_id.
  - intros k. unfold groupby_size. rewrite <-list_fmap_compose.
    change (fst ∘ _) with (@id (str * str)%type). rewrite list_fmap_id. symmetry. apply Hin.
  - intros k v (k' & [= -> ->] & Hk)%list_elem_of_fmap.
    apply Hin in Hk as [Hk _]. by rewrite group_select_isin.
Qed.

(** Without a NaN the floats are sorted as they are. *)
Lemma sort_floats_desc_no_nan {K} (s : list (K * F)) :
  Forall (λ e, fleb e.2 e.2) s → sort_floats_desc s = sort_desc float_ge s.
Proof.
  intros Hall. unfold sort_floats_desc. rewrite filter_all by done.
  replace (filter _ s) with (@nil (K * F)%type); [apply app_nil_r|].
  induction Hall as [|e s He _ IH]; [done|]. by rewrite filter_cons_False by tauto.
Qed.

(** The same for the sorted group means, when the means of the groups
    compare with each other. *)
Lemma top_pair_means c1 c2 ks n df :
  categorical df →
  let rows (k : str * str) :=
    filter (λ r, cell c1 r = Some k.1 ∧ cell c2 r = Some k.2) (records df) in
  let candidate (k : str * str) := k.1 ∈ ks ∧ (0 < length (rows k))%nat in
  let mean k := fmean (omap Electric_Range (rows k)) in
  (∀ k k', candidate k → candidate k' →
           fleb (mean k) (mean k') ∨ fleb (mean k') (mean k)) →
  (∀ k1 k2 k3, candidate k1 → candidate k2 → candidate k3 →
           fleb (mean k1) (mean k2) → fleb (mean k2) (mean k3) → fleb (mean k1) (mean k3)) →
  top_by (λ a b, fleb b a) n candidate mean
         (take n (pair_means c1 c2 (select_isin c1 ks df))).
Proof.
  intros Hcat rows candidate mean Htot Htrans.
  destruct (groups_select_isin c1 c2 ks df Hcat) as [Hnd Hin].
  assert (∀ e, e ∈ groupby_mean_range c1 c2 (select_isin c1 ks df) →
               candidate e.1 ∧ e.2 = mean e.1) as Hentries.
  { intros e (k & -> & Hk)%list_elem_of_fmap. cbn [fst snd].
    apply Hin in Hk as [Hk Hpos]. split; [by split|].
    unfold mean, rows. by rewrite group_select_isin. }
  unfold pair_means. rewrite sort_floats_desc_no_nan; last first.
  { apply Forall_forall. intros e [He ->]%Hentries. by destruct (Htot e.1 e.1 He He). }
  apply (top_by_of_top_n (λ a b, fleb b a) n _ _
           (groupby_mean_range c1 c2 (select_isin c1 ks df))).
  - apply (top_n_take_sort float_ge).
    + intros x y [Hx Hx']%Hentries [Hy Hy']%Hentries. unfold float_ge.
      rewrite Hx', Hy'. destruct (Htot x.1 y.1 Hx Hy); auto.
    + intros x y z [Hx Hx']%Hentries [Hy Hy']%Hentries [Hz Hz']%Hentries.
      unfold float_ge. rewrite Hx', Hy', Hz'. intros H1 H2.
      by apply (Htrans z.1 y.1 x.1).
  - unfold groupby_mean_range. rewrite <-list_fmap_compose.
    change (fst ∘ _) with (@id (str * str)%type). by rewrite list_fmap_id.
  - intros k. unfold groupby_mean_range. rewrite <-list_fmap_compose.
    change (fst ∘ _) with (@id (str * str)%type). rewrite list_fmap_id. symmetry. apply Hin.
  - intros k v Hkv. by destruct (Hentries _ Hkv) as [_ ?].
Qed.

(** C7.  Each "top N" of the renderer holds at most N entries, each a
    candidate with its own count of rows (or mean range), and a candidate
    is left out only when N are selected and none of them has less: the 3
    counties and the 5 makes among the categories of their column, the 3
    makes (first of the 5) again among all makes; the 5 (county, city)
    pairs among the pairs of all rows of the three selected counties taken
    together, and the 5 (make, model) pairs among the pairs of the rows of
    the three selected makes, by count and, when their means compare with
    each other (none is a NaN), by mean range. *)
Theorem top_selections df :
  categorical df →
  let count c k := length (filter (λ r, cell c r = Some k) (records df)) in
  let rows c1 c2 (k : str * str) :=
    filter (λ r, cell c1 r = Some k.1 ∧ cell c2 r = Some k.2) (records df) in
  let counties := (take 3 (ev_county_distribution df)).*1 in
  let makes := (take 3 (ev_make_distribution df)).*1 in
  let city_of_county k := k.1 ∈ counties ∧ (0 < length (rows cCounty cCity k))%nat in
  let model_of_make k := k.1 ∈ makes ∧ (0 < length (rows cMake cModel k))%nat in
  let mean k := fmean (omap Electric_Range (rows cMake cModel k)) in
  top_by ge 3 (λ k, k ∈ frame_cats df cCounty) (count cCounty)
         (take 3 (ev_county_distribution df)) ∧
  top_by ge 5 (λ k, k ∈ frame_cats df cMake) (count cMake) (ev_make_distribution df) ∧
  top_by ge 3 (λ k, k ∈ frame_cats df cMake) (count cMake)
         (take 3 (ev_make_distribution df)) ∧
  top_by ge 5 city_of_county (λ k, length (rows cCounty cCity k))
         (take 5 (pair_counts cCounty cCity (top_counties_data df))) ∧
  top_by ge 5 model_of_make (λ k, length (rows cMake cModel k))
         (take 5 (pair_counts cMake cModel (top_makes_data df))) ∧
  ((∀ k k', model_of_make k → model_of_make k' →
            fleb (mean k) (mean k') ∨ fleb (mean k') (mean k)) →
   (∀ k1 k2 k3, model_of_make k1 → model_of_make k2 → model_of_make k3 →
            fleb (mean k1) (mean k2) → fleb (mean k2) (mean k3) →
            fleb (mean k1) (mean k3)) →
   top_by (λ a b, fleb b a) 5 model_of_make mean
          (take 5 (pair_means cMake cModel (top_makes_data df)))).
Proof.
  intros Hcat. cbn zeta. split_and!.
  - by apply top_categories.
  - by apply top_categories.
  - unfold ev_make_distribution. rewrite take_take. by apply (top_categories cMake 3).
  - by apply (top_pair_counts cCounty cCity).
  - by apply (top_pair_counts cMake cModel).
  - intros Htot Htrans. by apply (top_pair_means cMake cModel).
Qed.
End TopSelections.

(** ** The further properties at the sample run *)

Lemma late_years y : y ∈ years late_table → 2023 < y.
Proof. intros H%list_elem_of_In. vm_compute in H. lia. Qed.

Lemma reversed_rows : records sample_table ≡ₚ records reversed_table.
Proof.
  unfold records, reversed_table. cbn [frame_rows].
  by rewrite fmap_reverse, reverse_Permutation.
Qed.

Lemma load_data_keeps_complete_rows_witness :
  ∃ s' df,
    load_data (sample_world (inr sample_csv)) (lit "input/ev_data.csv") empty_state
      = (Ret (Some 2%nat), s') ∧
    heap s' !! 2%nat = Some (OFrame df) ∧
    records df =
      filter (λ r, State r = Some (lit "WA") ∧ notna r) (records sample_csv) ∧
    (len df ≤ 9)%nat.
Proof.
  destruct (load_data (sample_world (inr sample_csv)) (lit "input/ev_data.csv") empty_state)
    as [r s'] eqn:Hrun.
  assert (r = Ret (Some 2%nat)) as ->
    by (apply (f_equal fst) in Hrun; vm_compute in Hrun; congruence).
  destruct (load_data_keeps_complete_rows _ _ _ _ _ Hrun)
    as (d & df & Hread & Hl & Hrec & _ & Hlen & _).
  injection Hread as <-.
  exists s', df. split; [reflexivity|]. split; [exact Hl|]. split; [exact Hrec|exact Hlen].
Defined.

Lemma interrupt_is_not_caught_witness :
  main (sample_world (inl KeyboardInterrupt)) empty_state =
    (Raise KeyboardInterrupt, mkState [] 1 [Makedirs (lit "output")]).
Proof.
  exact (proj2 (interrupt_is_not_caught (sample_world (inl KeyboardInterrupt))
                  KeyboardInterrupt empty_state eq_refl eq_refl) I).
Defined.

Lemma renderer_needs_all_forecast_years_witness :
  ∃ s',
    plot_all_charts (sample_world (inr sample_csv)) 0%nat partial_forecast
      (lit "output/ev_data") sample_state = (Raise KeyError, s') ∧
    length (saved_files (trace s')) = 7%nat.
Proof.
  destruct (renderer_needs_all_forecast_years (sample_world (inr sample_csv)) 0%nat
              sample_table partial_forecast (lit "output/ev_data") sample_state 2020 2029
              eq_refl ltac:(by_compute) ltac:(lia) ltac:(lia) eq_refl)
    as (s' & evs & Hrun & Htr & _ & Hfiles).
  exists s'. split; [exact Hrun|].
  rewrite Htr. change (trace sample_state) with (@nil (event Z)). cbn [app].
  rewrite Hfiles, length_fmap. reflexivity.
Defined.

Lemma renderer_needs_a_year_up_to_cutoff_witness :
  ∃ s',
    plot_all_charts (sample_world (inr sample_csv)) 0%nat sample_forecast
      (lit "output/ev_data") late_state = (Raise ValueError, s') ∧
    length (saved_files (trace s')) = 7%nat.
Proof.
  destruct (renderer_needs_a_year_up_to_cutoff (sample_world (inr sample_csv)) 0%nat
              late_table sample_forecast (lit "output/ev_data") late_state
              eq_refl late_years)
    as (s' & evs & Hrun & Htr & _ & Hfiles).
  exists s'. split; [exact Hrun|].
  rewrite Htr. change (trace late_state) with (@nil (event Z)). cbn [app].
  rewrite Hfiles, length_fmap. reflexivity.
Defined.

Lemma charts_do_not_overwrite_witness :
  ∃ s',
    plot_all_charts (sample_world (inr sample_csv)) 0%nat sample_forecast
      (lit "output/ev_data") sample_state = (Ret (), s') ∧
    NoDup (saved_files (trace s')).
Proof.
  destruct (plot_all_charts (sample_world (inr sample_csv)) 0%nat sample_forecast
              (lit "output/ev_data") sample_state) as [r s'] eqn:Hrun.
  assert (r = Ret ()) as ->
    by (apply (f_equal fst) in Hrun; vm_compute in Hrun; congruence).
  destruct (charts_do_not_overwrite (sample_world (inr sample_csv)) 0%nat sample_table
              sample_forecast (lit "output/ev_data") sample_state _ _ eq_refl Hrun)
    as (evs & Htr & Hnd).
  exists s'. split; [reflexivity|].
  rewrite Htr. change (trace sample_state) with (@nil (event Z)). exact Hnd.
Defined.

Lemma fit_failure_is_fatal_witness :
  ∃ s',
    main (sample_world (inr short_csv)) empty_state = (Raise TypeError, s') ∧
    saved_files (trace s') = [].
Proof.
  destruct (fit_failure_is_fatal (sample_world (inr short_csv)) short_csv TypeError
              empty_state I eq_refl eq_refl)
    as (s' & evs & Hrun & Htr & Hfiles).
  exists s'. split; [exact Hrun|].
  rewrite Htr. change (trace empty_state) with (@nil (event Z)). exact Hfiles.
Defined.

Lemma main_writes_eight_charts_witness :
  ∃ s',
    main (sample_world (inr sample_csv)) empty_state = (Ret (), s') ∧
    length (saved_files (trace s')) = 8%nat.
Proof.
  destruct (main_writes_eight_charts (sample_world (inr sample_csv)) sample_csv 1 1
              empty_state (sample_needs_two_points _) I eq_refl sample_int16 eq_refl)
    as (s' & evs & n & Hrun & Htr & Hfiles).
  exists s'. split; [exact Hrun|].
  rewrite Htr. change (trace empty_state) with (@nil (event Z)). cbn [app].
  rewrite Hfiles, length_fmap. reflexivity.
Defined.

Lemma yearly_counts_ignore_row_order_witness :
  ev_adoption_by_year sample_table = ev_adoption_by_year reversed_table.
Proof.
  exact (proj1 (yearly_counts_ignore_row_order sample_table reversed_table reversed_rows)).
Defined.

Lemma top_subsets_witness :
  len (top_counties_data sample_table) = 7%nat ∧
  len (top_makes_data sample_table) = 6%nat.
Proof.
  destruct (top_subsets sample_table (proj1 (sample_categorical cCounty))
              (proj1 (sample_categorical cMake))) as (-> & -> & _).
  split; vm_compute; reflexivity.
Defined.

Lemma legend_colours_suffice_witness :
  ∃ r s' evs,
    plot_all_charts (sample_world (inr sample_csv)) 0%nat sample_forecast
      (lit "output/ev_data") sample_state = (r, s') ∧
    trace s' = evs ∧
    (length (drawn_bars (barh_events (city_table sample_table)))
       ≤ length (top_counties sample_table))%nat ∧
    length (drawn_bars evs) = 11%nat.
Proof.
  destruct (legend_colours_suffice (sample_world (inr sample_csv)) 0%nat sample_table
              sample_forecast (lit "output/ev_data") sample_state eq_refl)
    as (r & s' & evs & Hrun & Htr & Hbars & [Hc _] & _).
  exists r, s', evs. split; [exact Hrun|]. split; [exact Htr|]. split; [exact Hc|].
  rewrite Hbars. vm_compute. reflexivity.
Defined.

Lemma grouped_bars_cover_the_table_witness :
  ∃ s' evs,
    barh_groups 0%nat city_state = (Ret (), s') ∧ trace s' = evs ∧
    bars evs ≡ₚ (λ r, (r.1.2, r.2, Some r.1.1)) <$> tab_rows (city_table sample_table).
Proof.
  destruct (grouped_bars_cover_the_table 0%nat (city_table sample_table) city_state eq_refl)
    as (s' & evs & Hrun & _ & Htr & Hbars & _).
  exists s', evs. split; [exact Hrun|]. split; [exact Htr|exact Hbars].
Defined.

Lemma wide_categorical : categorical wide_table.
Proof.
  intros c. split.
  - destruct c; by_compute.
  - intros r k Hr Hk. destruct c.
    all: vm_compute in Hr.
    all: repeat (apply elem_of_cons in Hr as [->|Hr];
                   [vm_compute in Hk; injection Hk as <-; by_compute|]).
    all: by apply elem_of_nil in Hr.
Qed.

Lemma top_selections_witness :
  (take 3 (ev_county_distribution wide_table)) =
    [(lit "King", 5%nat); (lit "Kitsap", 2%nat); (lit "Pierce", 2%nat)] ∧
  top_by ge 3 (λ k, k ∈ frame_cats wide_table cCounty)
         (λ k, length (filter (λ r, County r = Some k) (records wide_table)))
         (take 3 (ev_county_distribution wide_table)) ∧
  length (groupby_size cCounty cCity (top_counties_data wide_table)) = 7%nat ∧
  top_by ge 5
         (λ k : str * str,
            k.1 ∈ (take 3 (ev_county_distribution wide_table)).*1 ∧
            (0 < length (filter (λ r, County r = Some k.1 ∧ City r = Some k.2)
                           (records wide_table)))%nat)
         (λ k, length (filter (λ r, County r = Some k.1 ∧ City r = Some k.2)
                         (records wide_table)))
         (take 5 (pair_counts cCounty cCity (top_counties_data wide_table))) ∧
  (take 5 (pair_means cMake cModel (top_makes_data wide_table))).*2 =
    [400; 300; 280; 260; 259] ∧
  top_by (λ a b, fleb b a) 5
         (λ k : str * str,
            k.1 ∈ (take 3 (ev_make_distribution wide_table)).*1 ∧
            (0 < length (filter (λ r, Make r = Some k.1 ∧ Model r = Some k.2)
                           (records wide_table)))%nat)
         (λ k, fmean (omap Electric_Range
                        (filter (λ r, Make r = Some k.1 ∧ Model r = Some k.2)
                           (records wide_table))))
         (take 5 (pair_means cMake cModel (top_makes_data wide_table))).
Proof.
  destruct (top_selections wide_table wide_categorical) as (Hc & _ & _ & Hp & _ & Hm).
  split; [vm_compute; reflexivity|]. split; [exact Hc|].
  split; [vm_compute; reflexivity|]. split; [exact Hp|].
  split; [vm_compute; reflexivity|]. apply Hm.
  - intros k k' _ _. cbn [fleb sample_floats]. rewrite !Is_true_true, !Z.leb_le. lia.
  - intros k1 k2 k3 _ _ _. cbn [fleb sample_floats]. rewrite !Is_true_true, !Z.leb_le. lia.
Defined.
